(** * NJIT Schedule Pro: normalizer and backtracking solver

    A shallow embedding of [api/app/models.py], [api/app/normalizer.py] and
    [api/app/solver.py], and the properties of the specification that are
    settled against it.

    Conventions of the embedding.
    - Python [int] is [Z].  Python [float] (credits, score) is modelled by
      exact rationals [Q]: the values the program builds are sums of small
      integers and of halves or thousandths, far below the magnitude at
      which rounding could reorder two of them.
    - Python [str] is [string], restricted to ASCII; [str.strip],
      [str.upper], [str.lower], [in], [str.isdigit] and [int] are written
      out below for that alphabet.
    - [dict] and [defaultdict(list)] keep insertion order, and the code
      iterates over them, so they are association lists in insertion order.
    - A [set] of [frozenset]s of CRNs is a [gset (gset string)].
    - The built-in [hash] of a [str] is salted per interpreter process; it
      is a parameter [str_hash] of everything that calls it. *)

From Stdlib Require Import ZArith QArith Bool List Ascii String Lia Sorted Permutation DecimalString DecimalPos.
From stdpp Require Import base decidable option list gmap strings sorting.

Import ListNotations.
Local Open Scope string_scope.
Local Open Scope Z_scope.

(** ** Python string primitives (ASCII) *)

Module Py.

(** [str.isspace] on one ASCII character: TAB, LF, VT, FF, CR, the four
    separators FS GS RS US, and the space. *)
Definition isspace (c : ascii) : bool :=
  let n := N_of_ascii c in
  ((9 <=? n) && (n <=? 13) || (28 <=? n) && (n <=? 32))%N.

Definition is_digit (c : ascii) : bool :=
  let n := N_of_ascii c in ((48 <=? n) && (n <=? 57))%N.

Definition is_upper (c : ascii) : bool :=
  let n := N_of_ascii c in ((65 <=? n) && (n <=? 90))%N.

Definition is_lower (c : ascii) : bool :=
  let n := N_of_ascii c in ((97 <=? n) && (n <=? 122))%N.

Definition upper_char (c : ascii) : ascii :=
  if is_lower c then ascii_of_N (N_of_ascii c - 32) else c.

Definition lower_char (c : ascii) : ascii :=
  if is_upper c then ascii_of_N (N_of_ascii c + 32) else c.

Fixpoint map_string (f : ascii -> ascii) (s : string) : string :=
  match s with
  | EmptyString => EmptyString
  | String c s' => String (f c) (map_string f s')
  end.

Definition upper : string -> string := map_string upper_char.
Definition lower : string -> string := map_string lower_char.

Fixpoint lstrip (s : string) : string :=
  match s with
  | EmptyString => EmptyString
  | String c s' => if isspace c then lstrip s' else s
  end.

(** [rstrip] keeps a character when it is not a space or when something
    that is not stripped follows it. *)
Fixpoint rstrip (s : string) : string :=
  match s with
  | EmptyString => EmptyString
  | String c s' =>
      match rstrip s' with
      | EmptyString => if isspace c then EmptyString else String c EmptyString
      | r => String c r
      end
  end.

Definition strip (s : string) : string := rstrip (lstrip s).

(** The truth value of a [str]: the empty string is falsy. *)
Definition truthy (s : string) : bool :=
  match s with EmptyString => false | _ => true end.

Fixpoint startswith (p s : string) : bool :=
  match p, s with
  | EmptyString, _ => true
  | String a p', String b s' => if Ascii.eqb a b then startswith p' s' else false
  | String _ _, EmptyString => false
  end.

(** [needle in hay]. *)
Fixpoint contains (needle hay : string) : bool :=
  startswith needle hay ||
  match hay with
  | EmptyString => false
  | String _ hay' => contains needle hay'
  end.

Fixpoint all_digits (s : string) : bool :=
  match s with
  | EmptyString => true
  | String c s' => is_digit c && all_digits s'
  end.

(** [str.isdigit]: non-empty and every character a digit. *)
Definition isdigit (s : string) : bool := truthy s && all_digits s.

Definition digit_val (c : ascii) : Z := Z.of_N (N_of_ascii c) - 48.

Fixpoint int_acc (acc : Z) (s : string) : Z :=
  match s with
  | EmptyString => acc
  | String c s' => int_acc (10 * acc + digit_val c) s'
  end.

(** [int(s)] on a string of decimal digits. *)
Definition int (s : string) : Z := int_acc 0 s.

(** [x or None] on a string. *)
Definition or_none (s : string) : option string :=
  if truthy s then Some s else None.

End Py.

(** ** Data model ([models.py]) *)

Inductive DayOfWeek := MONDAY | TUESDAY | WEDNESDAY | THURSDAY | FRIDAY | SATURDAY | SUNDAY.
Inductive Status := OPEN | CLOSED | WAITLIST.
Inductive DeliveryMode := IN_PERSON | ONLINE | HYBRID | ASYNC.

#[global] Instance DayOfWeek_eq_dec : EqDecision DayOfWeek.
Proof. solve_decision. Defined.
#[global] Instance Status_eq_dec : EqDecision Status.
Proof. solve_decision. Defined.
#[global] Instance DeliveryMode_eq_dec : EqDecision DeliveryMode.
Proof. solve_decision. Defined.

(** The string value of the enum member, which the deduplication sort
    compares. *)
Definition day_value (d : DayOfWeek) : string :=
  match d with
  | MONDAY => "Mon" | TUESDAY => "Tue" | WEDNESDAY => "Wed" | THURSDAY => "Thu"
  | FRIDAY => "Fri" | SATURDAY => "Sat" | SUNDAY => "Sun"
  end.

Record Meeting := mkMeeting {
  day : DayOfWeek;
  start_min : Z;
  end_min : Z;
  location : option string
}.

Record Offering := mkOffering {
  crn : string;
  course_key : string;
  section : string;
  title : string;
  term : option string;
  meetings : list Meeting;
  status : Status;
  capacity : option Z;
  enrolled : option Z;
  instructor : option string;
  delivery : DeliveryMode;
  credits : option Q;
  info : option string;
  comments : option string
}.

Record AvailabilityBlock := mkBlock {
  block_day : DayOfWeek;
  block_start_min : Z;
  block_end_min : Z
}.

Record ScheduleFilters := mkFilters {
  filter_status : list Status;
  filter_delivery : option (list DeliveryMode);
  campus_include : option (list string);
  campus_exclude : option (list string);
  avoid_instructors : option (list string);
  prefer_instructors : option (list string);
  earliest_start : option Z;
  latest_end : option Z;
  max_gap_min : option Z;
  include_honors : bool;
  include_non_honors : bool
}.

(** [max_results] is validated to lie in [1, 2000], so it is a [nat]. *)
Record SolveRequest := mkRequest {
  required_course_keys : list string;
  optional_course_keys : option (list string);
  min_credits : option Q;
  max_credits : option Q;
  unavailable : list AvailabilityBlock;
  filters : ScheduleFilters;
  max_results : nat
}.

Record Schedule := mkSchedule {
  offerings : list Offering;
  total_credits : Q;
  score : Q
}.

(** [Meeting.overlaps] *)
Definition overlaps (self other : Meeting) : bool :=
  if decide (day self = day other)
  then negb ((end_min self <=? start_min other) || (start_min self >=? end_min other))
  else false.

(** [Meeting.conflicts_with_unavailable] *)
Definition conflicts_with_unavailable (self : Meeting) (unavailable_start unavailable_end : Z)
  : bool * Z :=
  if (end_min self <=? unavailable_start) || (start_min self >=? unavailable_end)
  then (false, 0)
  else (true, Z.min (end_min self) unavailable_end - Z.max (start_min self) unavailable_start).

(** [Offering.seats_available] *)
Definition seats_available (o : Offering) : option Z :=
  match capacity o, enrolled o with
  | Some c, Some e => Some (Z.max 0 (c - e))
  | _, _ => None
  end.

(** [Offering.is_honors] *)
Definition is_honors (o : Offering) : bool :=
  Py.startswith "H" (Py.upper (section o)).

(** [Offering.overlaps_with]: the nested loops return at the first
    overlapping pair. *)
Definition overlaps_with (self other : Offering) : bool :=
  existsb (fun m1 => existsb (fun m2 => overlaps m1 m2) (meetings other)) (meetings self).

(** ** Python containers *)

(** [sorted(xs, key=...)] and [list.sort(key=...)] are stable; a stable
    sort has one possible result, which insertion from the right computes.
    [leb x y] says that the key of [y] is not below the key of [x]. *)
Section StableSort.
Context {A : Type} (leb : A -> A -> bool).

Fixpoint insert_sorted (x : A) (l : list A) : list A :=
  match l with
  | [] => [x]
  | y :: l' => if leb x y then x :: y :: l' else y :: insert_sorted x l'
  end.

Definition sorted (l : list A) : list A := foldr insert_sorted [] l.
End StableSort.

(** [defaultdict(list)] in insertion order: [d[k].append(v)] and
    [d.get(k, [])]. *)
Section DefaultDict.
Context {K V : Type} `{EqDecision K}.

Fixpoint dd_append (k : K) (v : V) (d : list (K * list V)) : list (K * list V) :=
  match d with
  | [] => [(k, [v])]
  | (k', vs) :: d' =>
      if decide (k' = k) then (k', (vs ++ [v])%list) :: d' else (k', vs) :: dd_append k v d'
  end.

Fixpoint dd_get (k : K) (d : list (K * list V)) : list V :=
  match d with
  | [] => []
  | (k', vs) :: d' => if decide (k' = k) then vs else dd_get k d'
  end.
End DefaultDict.

(** ** Normalizer ([normalizer.py]) *)

(** [DAY_MAP] *)
Definition DAY_MAP (c : ascii) : option DayOfWeek :=
  match c with
  | "M" => Some MONDAY
  | "T" => Some TUESDAY
  | "W" => Some WEDNESDAY
  | "R" => Some THURSDAY
  | "F" => Some FRIDAY
  | "S" => Some SATURDAY
  | "U" => Some SUNDAY
  | _ => None
  end%char.

(** The [while] loop of [parse_days]. *)
Fixpoint days_of_chars (s : string) : list DayOfWeek :=
  match s with
  | EmptyString => []
  | String c s' =>
      match DAY_MAP c with
      | Some d => d :: days_of_chars s'
      | None => days_of_chars s'
      end
  end.

(** The guard shared by the three parsers: the string is falsy, or blank
    once stripped, or equal to TBA once uppercased (before stripping). *)
Definition blank_or_tba (s : string) : bool :=
  negb (Py.truthy s) || String.eqb (Py.strip s) EmptyString || String.eqb (Py.upper s) "TBA".

Definition parse_days (days_str : string) : list DayOfWeek :=
  if blank_or_tba days_str then []
  else days_of_chars (Py.upper (Py.strip days_str)).

(** The tail of the time pattern: optional spaces, then one of AM, PM, am,
    pm (no mixed case). *)
Definition match_meridiem (s : string) : option string :=
  let t := Py.lstrip s in
  if Py.startswith "AM" t then Some "AM"
  else if Py.startswith "PM" t then Some "PM"
  else if Py.startswith "am" t then Some "am"
  else if Py.startswith "pm" t then Some "pm"
  else None.

Definition match_minutes (hour : string) (s : string) : option (string * string * string) :=
  match s with
  | String m1 (String m2 rest) =>
      if Py.is_digit m1 && Py.is_digit m2 then
        match match_meridiem rest with
        | Some p => Some (hour, String m1 (String m2 EmptyString), p)
        | None => None
        end
      else None
  | _ => None
  end.

(** [re.match] of one or two digits, a colon, two digits, optional spaces
    and the meridiem: the three groups.  The greedy [\d{1,2}] takes two
    digits when a colon follows them and one digit when the colon follows
    at once; no other split can match. *)
Definition match_time (s : string) : option (string * string * string) :=
  match s with
  | String d1 (String d2 rest) =>
      if Py.is_digit d1 then
        if Py.is_digit d2 then
          match rest with
          | String ":"%char rest' => match_minutes (String d1 (String d2 EmptyString)) rest'
          | _ => None
          end
        else if Ascii.eqb d2 ":" then match_minutes (String d1 EmptyString) rest
        else None
      else None
  | _ => None
  end.

Definition parse_time (time_str : string) : option Z :=
  if blank_or_tba time_str then None
  else
    match match_time (Py.strip time_str) with
    | None => None
    | Some (g1, g2, g3) =>
        let hour := Py.int g1 in
        let minute := Py.int g2 in
        let period := Py.upper g3 in
        let hour :=
          if String.eqb period "PM" && negb (hour =? 12) then hour + 12
          else if String.eqb period "AM" && (hour =? 12) then 0
          else hour in
        Some (hour * 60 + minute)
    end.

(** One match of [\s*-\s*|\s+to\s+] at the head of [s]: what follows it. *)
Definition match_separator (s : string) : option string :=
  match Py.lstrip s with
  | String "-"%char rest => Some (Py.lstrip rest)
  | _ =>
      match s with
      | String c _ =>
          if Py.isspace c then
            match Py.lstrip s with
            | String "t"%char (String "o"%char (String c' rest)) =>
                if Py.isspace c' then Some (Py.lstrip rest) else None
            | _ => None
            end
          else None
      | EmptyString => None
      end
  end.

(** [re.split(..., s, maxsplit=1)]: the text before and after the leftmost
    separator, or [None] when there is none (a one-element list). *)
Fixpoint split_range (s : string) : option (string * string) :=
  match match_separator s with
  | Some rest => Some (EmptyString, rest)
  | None =>
      match s with
      | EmptyString => None
      | String c s' =>
          match split_range s' with
          | Some (a, b) => Some (String c a, b)
          | None => None
          end
      end
  end.

Definition parse_times (times_str : string) : option Z * option Z :=
  if blank_or_tba times_str then (None, None)
  else
    match split_range (Py.strip times_str) with
    | None => (None, None)
    | Some (p0, p1) => (parse_time p0, parse_time p1)
    end.

Definition normalize_status (status_str : string) : Status :=
  if negb (Py.truthy status_str) then OPEN
  else
    let status_str := Py.lower (Py.strip status_str) in
    if Py.contains "closed" status_str then CLOSED
    else if Py.contains "wait" status_str then WAITLIST
    else OPEN.

Definition normalize_delivery (delivery_str location : string) : DeliveryMode :=
  if negb (Py.truthy delivery_str) then
    if Py.truthy location &&
       (Py.contains "online" (Py.lower location) || Py.contains "web" (Py.lower location))
    then ONLINE else IN_PERSON
  else
    let delivery_str := Py.lower (Py.strip delivery_str) in
    if Py.contains "online" delivery_str || Py.contains "web" delivery_str
       || Py.contains "distance" delivery_str then ONLINE
    else if Py.contains "hybrid" delivery_str || Py.contains "blended" delivery_str then HYBRID
    else if Py.contains "async" delivery_str || Py.contains "asynchronous" delivery_str then ASYNC
    else if Py.contains "face-to-face" delivery_str || Py.contains "in-person" delivery_str
            || Py.contains "in person" delivery_str then IN_PERSON
    else IN_PERSON.

(** The longest prefix of characters satisfying [p], and the rest. *)
Fixpoint span (p : ascii -> bool) (s : string) : string * string :=
  match s with
  | EmptyString => (EmptyString, EmptyString)
  | String c s' =>
      if p c then let '(a, b) := span p s' in (String c a, b) else (EmptyString, s)
  end.

(** The pattern of [re.match] is one or more capitals, optional spaces, one
    or more digits, then any capitals; matching is greedy and needs no
    backtracking: a shorter run of letters or spaces leaves a character
    that the next item rejects. *)
Definition extract_course_key (course_str : string) : string :=
  if negb (Py.truthy course_str) then EmptyString
  else
    let s := Py.upper (Py.strip course_str) in
    let '(subject, r1) := span Py.is_upper s in
    let '(catalog, r2) := span Py.is_digit (Py.lstrip r1) in
    let '(suffix, _) := span Py.is_upper r2 in
    if Py.truthy subject && Py.truthy catalog
    then subject ++ " " ++ catalog ++ suffix
    else s.

(** A row of the table as [normalize_csv_row] reads it.  A text field holds
    [str(row.get(column, default))].  A numeric cell is [Blank] when it is
    missing, NaN or blank (the field becomes [None]), [Value v] when
    [int] or [float] converts it to [v], and [Invalid] when the conversion
    raises, which the enclosing [try] turns into a dropped row. *)
Inductive NumCell (A : Type) := Blank | Value (v : A) | Invalid.
Arguments Blank {A}.
Arguments Value {A} v.
Arguments Invalid {A}.

Record Row := mkRow {
  row_CRN : string;
  row_Course : string;
  row_Title : string;
  row_Section : string;
  row_Term : string;
  row_Days : string;
  row_Times : string;
  row_Location : string;
  row_Status : string;
  row_Delivery_Mode : string;
  row_Max : NumCell Z;
  row_Now : NumCell Z;
  row_Credits : NumCell Q;
  row_Instructor : string;
  row_Info : string;
  row_Comments : string
}.

(** The result of a conversion that may raise: [None] is the exception. *)
Definition convert {A : Type} (c : NumCell A) : option (option A) :=
  match c with
  | Blank => Some None
  | Value v => Some (Some v)
  | Invalid => None
  end.

(** The meetings built from one row. *)
Definition build_meetings (days : list DayOfWeek) (times : option Z * option Z)
    (location : string) : list Meeting :=
  match days, times with
  | _ :: _, (Some start_min, Some end_min) =>
      map (fun day => mkMeeting day start_min end_min (Py.or_none location)) days
  | _, _ => []
  end.

Definition normalize_csv_row (row : Row) : option Offering :=
  let crn := Py.strip (row_CRN row) in
  if negb (Py.truthy crn) then None
  else
    let course_raw := Py.strip (row_Course row) in
    let course_key := extract_course_key course_raw in
    if negb (Py.truthy course_key) then None
    else
      let title := Py.strip (row_Title row) in
      let section := Py.strip (row_Section row) in
      let term := Py.strip (row_Term row) in
      let days_str := Py.strip (row_Days row) in
      let times_str := Py.strip (row_Times row) in
      let days := parse_days days_str in
      let meetings := build_meetings days (parse_times times_str) (Py.strip (row_Location row)) in
      let status := normalize_status (row_Status row) in
      let delivery := normalize_delivery (row_Delivery_Mode row) (row_Location row) in
      capacity ← convert (row_Max row);
      enrolled ← convert (row_Now row);
      credits ← convert (row_Credits row);
      Some (mkOffering crn course_key section title (Py.or_none term) meetings status
              capacity enrolled (Py.or_none (Py.strip (row_Instructor row))) delivery credits
              (Py.or_none (Py.strip (row_Info row))) (Py.or_none (Py.strip (row_Comments row)))).

(** [normalize_csv] after the file has been read: the offerings of the rows
    that are not dropped, in order. *)
Definition normalize_rows (rows : list Row) : list Offering :=
  omap normalize_csv_row rows.

#[global] Instance DayOfWeek_countable : Countable DayOfWeek.
Proof.
  refine (inj_countable'
    (fun d => match d with
              | MONDAY => 0%nat | TUESDAY => 1%nat | WEDNESDAY => 2%nat | THURSDAY => 3%nat
              | FRIDAY => 4%nat | SATURDAY => 5%nat | SUNDAY => 6%nat end)
    (fun n => match n with
              | 0%nat => MONDAY | 1%nat => TUESDAY | 2%nat => WEDNESDAY | 3%nat => THURSDAY
              | 4%nat => FRIDAY | 5%nat => SATURDAY | _ => SUNDAY end) _).
  intros []; reflexivity.
Defined.

(** The key [(x.day.value, x.start_min)] of the signature sort. *)
Definition sig_key_leb (x y : Meeting) : bool :=
  match String.compare (day_value (day x)) (day_value (day y)) with
  | Lt => true
  | Eq => start_min x <=? start_min y
  | Gt => false
  end.

Definition meeting_sig (o : Offering) : list (DayOfWeek * Z * Z) :=
  map (fun m => (day m, start_min m, end_min m)) (sorted sig_key_leb (meetings o)).

(** The loop of [deduplicate_offerings], threading [seen] and [unique]. *)
Definition dedup_step (st : gset (string * list (DayOfWeek * Z * Z)) * list Offering)
    (offering : Offering) : gset (string * list (DayOfWeek * Z * Z)) * list Offering :=
  let '(seen, unique) := st in
  let sig := (crn offering, meeting_sig offering) in
  if decide (sig ∈ seen) then (seen, unique)
  else ({[ sig ]} ∪ seen, (unique ++ [offering])%list).

Definition deduplicate_offerings (offerings : list Offering) : list Offering :=
  snd (fold_left dedup_step offerings (∅, [])).

Definition set_meetings (o : Offering) (ms : list Meeting) : Offering :=
  mkOffering (crn o) (course_key o) (section o) (title o) (term o) ms (status o)
    (capacity o) (enrolled o) (instructor o) (delivery o) (credits o) (info o) (comments o).

Definition meeting_exists (meeting : Meeting) (existing : list Meeting) : bool :=
  existsb (fun m => bool_decide (day m = day meeting)
                    && (start_min m =? start_min meeting)
                    && (end_min m =? end_min meeting)) existing.

(** The inner loop of [merge_offerings_by_crn]: [existing.meetings] grows
    while the meetings of the later row are visited. *)
Definition merge_meetings (existing offering : Offering) : Offering :=
  fold_left (fun ex meeting =>
               if meeting_exists meeting (meetings ex) then ex
               else set_meetings ex (meetings ex ++ [meeting])%list)
            (meetings offering) existing.

(** One iteration of the outer loop on [crn_map], a [dict] in insertion
    order.  The stored offering is the object of the first row with that
    CRN; a later row with the same CRN is only read, so updating the stored
    value is all the in-place [append] does to the result. *)
Fixpoint crn_map_step (offering : Offering) (crn_map : list (string * Offering))
  : list (string * Offering) :=
  match crn_map with
  | [] => [(crn offering, offering)]
  | (k, existing) :: rest =>
      if decide (k = crn offering) then (k, merge_meetings existing offering) :: rest
      else (k, existing) :: crn_map_step offering rest
  end.

Definition merge_offerings_by_crn (offerings : list Offering) : list Offering :=
  map snd (fold_left (fun crn_map offering => crn_map_step offering crn_map) offerings []).

(** [normalize_multiple_csvs] on the rows of all files, concatenated. *)
Definition normalize_catalog (rows : list Row) : list Offering :=
  deduplicate_offerings (merge_offerings_by_crn (normalize_rows rows)).

(** ** Solver ([solver.py]) *)

(** The truth value of an [Optional[List]]: [None] and the empty list are
    both falsy, so the option is read as its list. *)
Definition items {A : Type} (o : option (list A)) : list A := default [] o.

Definition nonempty {A : Type} (l : list A) : bool :=
  match l with [] => false | _ => true end.

(** The truth value of an [Optional[str]]. *)
Definition str_given (o : option string) : bool :=
  match o with Some s => Py.truthy s | None => false end.

(** The truth value of an [Optional] number: [None] and zero are falsy. *)
Definition Z_truthy (o : option Z) : bool :=
  match o with Some z => negb (z =? 0) | None => false end.

Definition Q_truthy (o : option Q) : bool :=
  match o with Some q => negb (Qeq_bool q 0) | None => false end.

Definition Qltb (a b : Q) : bool := negb (Qle_bool b a).

(** [any(x.lower() in text.lower() for x in needles)] *)
Definition any_lower_in (needles : list string) (text : string) : bool :=
  existsb (fun x => Py.contains (Py.lower x) (Py.lower text)) needles.

(** [meeting.location and any(campus.lower() in meeting.location.lower() ...)] *)
Definition location_matches (campuses : list string) (meeting : Meeting) : bool :=
  match location meeting with
  | Some loc => Py.truthy loc && any_lower_in campuses loc
  | None => false
  end.

(** The time-window loop: [valid_time] after it. *)
Definition valid_time (filters : ScheduleFilters) (offering : Offering) : bool :=
  forallb (fun meeting =>
             negb (match earliest_start filters with
                   | Some e => start_min meeting <? e
                   | None => false
                   end)
             && negb (match latest_end filters with
                      | Some l => end_min meeting >? l
                      | None => false
                      end))
          (meetings offering).

(** The body of the inner loop of [_prefilter_offerings]: [true] when the
    offering reaches [filtered.append], [false] at each [continue]. *)
Definition passes_filters (filters : ScheduleFilters) (offering : Offering) : bool :=
  if negb (bool_decide (status offering ∈ filter_status filters)) then false
  else if nonempty (items (filter_delivery filters))
          && negb (bool_decide (delivery offering ∈ items (filter_delivery filters)))
  then false
  else if nonempty (items (avoid_instructors filters)) && str_given (instructor offering)
          && any_lower_in (items (avoid_instructors filters)) (default EmptyString (instructor offering))
  then false
  else if nonempty (items (campus_exclude filters)) && nonempty (meetings offering)
          && existsb (location_matches (items (campus_exclude filters))) (meetings offering)
  then false
  else if nonempty (items (campus_include filters)) && nonempty (meetings offering)
          && negb (existsb (location_matches (items (campus_include filters))) (meetings offering))
  then false
  else if (bool_decide (is_Some (earliest_start filters)) || bool_decide (is_Some (latest_end filters)))
          && negb (valid_time filters offering)
  then false
  else if is_honors offering && negb (include_honors filters) then false
  else if negb (is_honors offering) && negb (include_non_honors filters) then false
  else true.

Record ScheduleSolver := mkSolver {
  catalog : list Offering;
  request : SolveRequest;
  results : list Schedule;
  seen_signatures : gset (gset string);
  offerings_by_course : list (string * list Offering);
  unavailable_by_day : list (DayOfWeek * list (Z * Z))
}.

Definition set_results (self : ScheduleSolver) (rs : list Schedule) : ScheduleSolver :=
  mkSolver (catalog self) (request self) rs (seen_signatures self)
    (offerings_by_course self) (unavailable_by_day self).

Definition _prefilter_offerings (filters : ScheduleFilters)
    (by_course : list (string * list Offering)) : list (string * list Offering) :=
  map (fun '(course_key, offerings) => (course_key, List.filter (passes_filters filters) offerings))
      by_course.

(** [ScheduleSolver.__init__] *)
Definition init (catalog : list Offering) (request : SolveRequest) : ScheduleSolver :=
  let by_course :=
    fold_left (fun d offering => dd_append (course_key offering) offering d) catalog [] in
  let unavailable_by_day :=
    fold_left (fun d block =>
                 dd_append (block_day block) (block_start_min block, block_end_min block) d)
              (unavailable request) [] in
  mkSolver catalog request [] ∅ (_prefilter_offerings (filters request) by_course)
    unavailable_by_day.

Definition _has_conflict (offering : Offering) (schedule : list Offering) : bool :=
  existsb (fun existing => overlaps_with offering existing) schedule.

Definition _conflicts_with_availability (self : ScheduleSolver) (offering : Offering) : bool :=
  existsb (fun meeting =>
             existsb (fun '(unavail_start, unavail_end) =>
                        fst (conflicts_with_unavailable meeting unavail_start unavail_end))
                     (dd_get (day meeting) (unavailable_by_day self)))
          (meetings offering).

(** Tuples [(start, end)] compare lexicographically. *)
Definition pair_leb (a b : Z * Z) : bool :=
  (fst a <? fst b) || ((fst a =? fst b) && (snd a <=? snd b)).

(** The loop over [range(len(meetings) - 1)] on one day's sorted list. *)
Fixpoint day_gaps (max_gap : option Z) (meetings : list (Z * Z)) : Z :=
  match meetings with
  | prev :: (next :: _) as rest =>
      let gap := fst next - snd prev in
      (if gap >? 0 then
         if Z_truthy max_gap && (gap >? default 0 max_gap) then gap * 10 else gap
       else 0)
      + day_gaps max_gap rest
  | _ => 0
  end.

Definition _compute_total_gaps (self : ScheduleSolver) (schedule : list Offering) : Z :=
  let meetings_by_day :=
    fold_left (fun d offering =>
                 fold_left (fun d meeting =>
                              dd_append (day meeting) (start_min meeting, end_min meeting) d)
                           (meetings offering) d)
              schedule [] in
  let max_gap := max_gap_min (filters (request self)) in
  fold_left (fun total_gap '(_, meetings) =>
               if (length meetings <=? 1)%nat then total_gap
               else total_gap + day_gaps max_gap (sorted pair_leb meetings))
            meetings_by_day 0.

Section Search.

(** The built-in [hash] on [str] of the running interpreter. *)
Variable str_hash : string -> Z.

(** [int(o.crn) if o.crn.isdigit() else hash(o.crn)] *)
Definition crn_val (o : Offering) : Z :=
  if Py.isdigit (crn o) then Py.int (crn o) else str_hash (crn o).

Definition _compute_score (self : ScheduleSolver) (schedule : list Offering) : Q :=
  let total_gap_minutes := _compute_total_gaps self schedule in
  let score := (inject_Z total_gap_minutes * 1000)%Q in
  let prefer_instructors := items (prefer_instructors (filters (request self))) in
  let instructor_bonus :=
    fold_left (fun bonus offering =>
                 if str_given (instructor offering) && nonempty prefer_instructors
                    && any_lower_in prefer_instructors (default EmptyString (instructor offering))
                 then bonus + 1 else bonus)
              schedule 0 in
  let score := (score - inject_Z instructor_bonus * 100)%Q in
  let total_seats :=
    fold_left (fun acc offering => acc + default 0 (seats_available offering)) schedule 0 in
  let score := (score - inject_Z total_seats * 1)%Q in
  let crn_sum := fold_left (fun acc o => acc + crn_val o) schedule 0 in
  (score + inject_Z (crn_sum mod 1000) * (1 # 1000))%Q.

(** [sum(o.credits for o in current_schedule if o.credits is not None)] *)
Definition sum_credits (schedule : list Offering) : Q :=
  fold_left (fun acc o => match credits o with Some c => (acc + c)%Q | None => acc end)
            schedule 0%Q.

(** The base case of [_backtrack]. *)
Definition leaf (current_schedule : list Offering) (self : ScheduleSolver) : ScheduleSolver :=
  let total_credits := sum_credits current_schedule in
  if Q_truthy (min_credits (request self))
     && Qltb total_credits (default 0%Q (min_credits (request self)))
  then self
  else if Q_truthy (max_credits (request self))
          && Qltb (default 0%Q (max_credits (request self))) total_credits
  then self
  else
    let sig : gset string := list_to_set (map crn current_schedule) in
    if decide (sig ∈ seen_signatures self) then self
    else
      let schedule :=
        mkSchedule current_schedule total_credits (_compute_score self current_schedule) in
      let self :=
        mkSolver (catalog self) (request self) (results self ++ [schedule])%list
          ({[ sig ]} ∪ seen_signatures self)
          (offerings_by_course self) (unavailable_by_day self) in
      (* the early-termination test: both of its branches return to the
         loop of the caller *)
      if (max_results (request self) * 2 <=? length (results self))%nat then self
      else self.

(** [_backtrack] on the course keys that remain from [course_idx] on.
    The loop over the offerings of the first of them threads the solver
    through the recursive calls; [current_schedule] is pushed before a
    call and popped after it. *)
Fixpoint _backtrack_from (remaining : list string) (current_schedule : list Offering)
    (self : ScheduleSolver) : ScheduleSolver :=
  match remaining with
  | [] => leaf current_schedule self
  | course_key :: remaining' =>
      fold_left (fun self offering =>
                   if _has_conflict offering current_schedule then self
                   else if _conflicts_with_availability self offering then self
                   else _backtrack_from remaining' (current_schedule ++ [offering])%list self)
                (dd_get course_key (offerings_by_course self)) self
  end.

Definition _backtrack (course_keys : list string) (course_idx : nat)
    (current_schedule : list Offering) (self : ScheduleSolver) : ScheduleSolver :=
  _backtrack_from (drop course_idx course_keys) current_schedule self.

Definition score_leb (a b : Schedule) : bool := Qle_bool (score a) (score b).

(** [ScheduleSolver.solve]: the solver after the call and the list it
    returns. *)
Definition solve (self : ScheduleSolver) : ScheduleSolver * list Schedule :=
  let candidates ck := dd_get ck (offerings_by_course self) in
  let required_courses :=
    sorted (fun a b => (length (candidates a) <=? length (candidates b))%nat)
           (required_course_keys (request self)) in
  if existsb (fun course_key => negb (nonempty (candidates course_key))) required_courses
  then (self, [])
  else
    let self := _backtrack required_courses 0 [] self in
    let self := set_results self (sorted score_leb (results self)) in
    (self, take (max_results (request self)) (results self)).

Definition solve_schedules (catalog : list Offering) (request : SolveRequest) : list Schedule :=
  snd (solve (init catalog request)).

(** The result buffer [self.results] when [solve] returns. *)
Definition result_buffer (catalog : list Offering) (request : SolveRequest) : list Schedule :=
  results (fst (solve (init catalog request))).

End Search.

(** A partial schedule in which every offering was checked against the
    ones before it. *)
Definition conflict_free (schedule : list Offering) : Prop :=
  forall (i j : nat) (o1 o2 : Offering),
    (i < j)%nat -> schedule !! i = Some o1 -> schedule !! j = Some o2 ->
    overlaps_with o2 o1 = false.


(** The candidate offerings of a course once the solver is initialised:
    [self.offerings_by_course.get(course_key, [])]. *)
Definition candidates (catalog : list Offering) (request : SolveRequest) (course_key : string)
  : list Offering :=
  dd_get course_key (offerings_by_course (init catalog request)).

(** The gap term as the specification words it: a positive gap counts ten
    times when [max_gap_min] is set and the gap is above it, whatever the
    value that is set. *)
Definition spec_gap_term (max_gap : option Z) (gap : Z) : Z :=
  if gap >? 0 then
    match max_gap with
    | Some g => if gap >? g then 10 * gap else gap
    | None => gap
    end
  else 0.

Fixpoint spec_day_gaps (max_gap : option Z) (meetings : list (Z * Z)) : Z :=
  match meetings with
  | prev :: (next :: _) as rest =>
      spec_gap_term max_gap (fst next - snd prev) + spec_day_gaps max_gap rest
  | _ => 0
  end.

Definition triple (m : Meeting) : DayOfWeek * Z * Z := (day m, start_min m, end_min m).

(** The [dict] of the merge: every key is the CRN of its value, and no key
    occurs twice. *)
Definition crn_map_ok (crn_map : list (string * Offering)) : Prop :=
  Forall (fun kv => fst kv = crn (snd kv)) crn_map /\ NoDup (map fst crn_map).


(** An offering whose CRN is numeric, so that its tie-break value is the
    integer it spells. *)
Definition numeric_crn (o : Offering) : Prop := Py.isdigit (crn o) = true.

(** The request with both campus filters taken out. *)
Definition without_campus (f : ScheduleFilters) : ScheduleFilters :=
  mkFilters (filter_status f) (filter_delivery f) None None (avoid_instructors f)
    (prefer_instructors f) (earliest_start f) (latest_end f) (max_gap_min f)
    (include_honors f) (include_non_honors f).

Definition request_without_campus (req : SolveRequest) : SolveRequest :=
  mkRequest (required_course_keys req) (optional_course_keys req) (min_credits req)
    (max_credits req) (unavailable req) (without_campus (filters req)) (max_results req).

(** ** Vocabulary of the further properties *)

(** The fields of the solver that the search only reads. *)
Definition same_setup (self0 self : ScheduleSolver) : Prop :=
  request self = request self0 /\
  offerings_by_course self = offerings_by_course self0 /\
  unavailable_by_day self = unavailable_by_day self0.

(** The signature of a schedule: [frozenset(o.crn for o in offerings)]. *)
Definition schedule_sig (S : Schedule) : gset string :=
  list_to_set (map crn (offerings S)).

(** The order in which [solve] visits the required courses. *)
Definition required_courses (catalog : list Offering) (req : SolveRequest) : list string :=
  sorted (fun a b => (length (candidates catalog req a) <=? length (candidates catalog req b))%nat)
         (required_course_keys req).

(** The buffer and the signature set agree: the set holds the signatures
    of the buffered schedules, and no two of those are equal. *)
Definition signatures_ok (self : ScheduleSolver) : Prop :=
  seen_signatures self = list_to_set (map schedule_sig (results self)) /\
  NoDup (map schedule_sig (results self)).

(** [Schedule.__eq__]: the same set of CRNs. *)
Definition Schedule_eq (self other : Schedule) : bool :=
  bool_decide (schedule_sig self = schedule_sig other).

(** The tuple that [Schedule.__hash__] hashes: the CRNs in sorted order,
    repetitions kept. *)
Definition Schedule_hash_key (self : Schedule) : list string :=
  sorted String.leb (map crn (offerings self)).

(** A string of white space only. *)
Fixpoint all_space (s : string) : bool :=
  match s with
  | EmptyString => true
  | String c s' => Py.isspace c && all_space s'
  end.

(** A string that is empty or starts with something other than white
    space. *)
Definition no_leading_space (s : string) : bool :=
  match s with
  | EmptyString => true
  | String c _ => negb (Py.isspace c)
  end.

(** Every character of the string satisfies [p]. *)
Fixpoint string_forall (p : ascii -> bool) (s : string) : bool :=
  match s with
  | EmptyString => true
  | String c s' => p c && string_forall p s'
  end.

(** The string is empty or its first character fails [p]. *)
Definition head_fails (p : ascii -> bool) (s : string) : bool :=
  match s with
  | EmptyString => true
  | String c _ => negb (p c)
  end.

(** The signature that [deduplicate_offerings] compares. *)
Definition offering_sig (o : Offering) : string * list (DayOfWeek * Z * Z) :=
  (crn o, meeting_sig o).

(** The first offering of a list with a given CRN. *)
Definition first_with_crn (c : string) (l : list Offering) : option Offering :=
  List.find (fun o => bool_decide (crn o = c)) l.

(** The [dict] that [merge_offerings_by_crn] has built after a list of
    offerings. *)
Definition crn_map_of (l : list Offering) : list (string * Offering) :=
  fold_left (fun crn_map offering => crn_map_step offering crn_map) l [].

(** What the merge keeps true of its [dict] after the offerings [l]: the
    keys are distinct and cover the CRNs seen; the value under a key has
    that CRN, is the first offering with it up to its meetings, and its
    meetings are, as (day, start, end) triples, those of all offerings
    with that CRN. *)
Definition crn_map_inv (l : list Offering) (crn_map : list (string * Offering)) : Prop :=
  NoDup (map fst crn_map) /\
  (forall x, In x l -> In (crn x) (map fst crn_map)) /\
  (forall k o', In (k, o') crn_map ->
     crn o' = k /\
     exists o, first_with_crn k l = Some o /\
               set_meetings o' (meetings o) = o /\
               forall t, In t (map triple (meetings o')) <->
                         exists x, In x l /\ crn x = k /\ In t (map triple (meetings x))).

(** The state of the deduplication loop after a list of offerings. *)
Definition dedup_state (l : list Offering)
  : gset (string * list (DayOfWeek * Z * Z)) * list Offering :=
  fold_left dedup_step l (∅, []).

(** ** Callers ([main.py], [ics_export.py])

    The parts of the endpoints that compute on the catalog and on a
    schedule: the catalog update of [ingest_csv], the validation and the
    response of [solve], the day and time strings of [export_csv], and the
    date offset of [generate_ics].  Requests, files and responses as such
    are left out. *)

(** The loop of [ingest_csv] that adds the offerings of an uploaded file:
    the catalog, the set [existing_crns] and the counter [added]. *)
Definition ingest_step (st : list Offering * gset string * nat) (offering : Offering)
  : list Offering * gset string * nat :=
  let '(catalog, existing_crns, added) := st in
  if decide (crn offering ∈ existing_crns) then st
  else ((catalog ++ [offering])%list, {[ crn offering ]} ∪ existing_crns, S added).

Definition ingest_offerings (catalog new_offerings : list Offering)
  : list Offering * gset string * nat :=
  fold_left ingest_step new_offerings (catalog, list_to_set (map crn catalog), 0%nat).




(** [DAY_TO_ISO_WEEKDAY] *)
Definition DAY_TO_ISO_WEEKDAY (d : DayOfWeek) : Z :=
  match d with
  | MONDAY => 0 | TUESDAY => 1 | WEDNESDAY => 2 | THURSDAY => 3
  | FRIDAY => 4 | SATURDAY => 5 | SUNDAY => 6
  end.

(** [days_ahead] in [generate_ics], from the day of a meeting and
    [term_start.weekday()]. *)
Definition days_ahead (meeting_day : DayOfWeek) (term_start_weekday : Z) : Z :=
  (DAY_TO_ISO_WEEKDAY meeting_day - term_start_weekday) mod 7.

(** The letter [m.day.value[0]] that the CSV export writes for a day. *)
Definition day_initial (d : DayOfWeek) : ascii :=
  match day_value d with
  | String c _ => c
  | EmptyString => " "%char
  end.

(** One-character strings compare by their code. *)
Definition char_leb (a b : ascii) : bool := (N_of_ascii a <=? N_of_ascii b)%N.

(** [days_str] in [export_csv]: the sorted set of the day letters, joined,
    or TBA for an offering without meetings.  The letters of a [set] come
    in no particular order; sorting them gives one list whatever that
    order was, so the set is taken as the list without its repetitions. *)
Definition export_days_str (o : Offering) : string :=
  if nonempty (meetings o) then
    string_of_list_ascii
      (sorted char_leb (remove_dups (map (fun m => day_initial (day m)) (meetings o))))
  else "TBA".

(** [str(n)] on an [int]. *)
Definition str_of_int (n : Z) : string := NilZero.string_of_int (Z.to_int n).

(** The format [{n:02d}]: at least two characters, padded with a zero. *)
Definition format_02d (n : Z) : string :=
  let s := str_of_int n in
  if (String.length s <? 2)%nat then ("0" ++ s)%string else s.

(** [times_str] in [export_csv], from the first meeting. *)
Definition export_times_str (o : Offering) : string :=
  match meetings o with
  | first_meeting :: _ =>
      let start_hr := start_min first_meeting / 60 in
      let start_min' := start_min first_meeting mod 60 in
      let end_hr := end_min first_meeting / 60 in
      let end_min' := end_min first_meeting mod 60 in
      (format_02d start_hr ++ ":" ++ format_02d start_min' ++ " - "
       ++ format_02d end_hr ++ ":" ++ format_02d end_min')%string
  | [] => "TBA"
  end.

(** The day that [parse_days] reads from the letter the export writes. *)
Definition day_read_back (d : DayOfWeek) : DayOfWeek :=
  match d with
  | THURSDAY => TUESDAY
  | SUNDAY => SATURDAY
  | d => d
  end.

(** ** Sample inputs *)

Definition default_filters : ScheduleFilters :=
  mkFilters [OPEN] None None None None None None None None true true.

Definition plain_offering (crn course_key section : string) (meetings : list Meeting)
    (credits : option Q) : Offering :=
  mkOffering crn course_key section "Intro" None meetings OPEN None None None IN_PERSON
    credits None None.

(** The catalog of the solver tests. *)
Definition sample_offerings : list Offering :=
  [ mkOffering "11001" "CS 100" "001" "Intro to CS" None
      [mkMeeting MONDAY 600 680 (Some "CKB 101"); mkMeeting WEDNESDAY 600 680 (Some "CKB 101")]
      OPEN (Some 40) (Some 30) None IN_PERSON (Some 3%Q) None None;
    mkOffering "11002" "CS 100" "002" "Intro to CS" None
      [mkMeeting TUESDAY 840 920 (Some "CKB 102"); mkMeeting THURSDAY 840 920 (Some "CKB 102")]
      OPEN (Some 40) (Some 25) None IN_PERSON (Some 3%Q) None None;
    mkOffering "12001" "MATH 111" "001" "Calculus I" None
      [mkMeeting MONDAY 540 590 None; mkMeeting WEDNESDAY 540 590 None;
       mkMeeting FRIDAY 540 590 None]
      OPEN (Some 35) (Some 20) None IN_PERSON (Some 4%Q) None None;
    mkOffering "12002" "MATH 111" "002" "Calculus I" None
      [mkMeeting TUESDAY 660 735 None; mkMeeting THURSDAY 660 735 None]
      OPEN (Some 35) (Some 30) None IN_PERSON (Some 4%Q) None None ].

Definition request_two_courses : SolveRequest :=
  mkRequest ["CS 100"; "MATH 111"] None None None [] default_filters 500.

Definition request_credits_6_8 : SolveRequest :=
  mkRequest ["CS 100"; "MATH 111"] None (Some 6%Q) (Some 8%Q) [] default_filters 500.

Definition no_hash (s : string) : Z := 0.

(** One three-credit section, and a request whose [max_credits] is zero. *)
Definition cs100_only : list Offering :=
  [plain_offering "11001" "CS 100" "001" [mkMeeting MONDAY 600 680 None] (Some 3%Q)].

Definition request_max_credits_0 : SolveRequest :=
  mkRequest ["CS 100"] None None (Some 0%Q) [] default_filters 500.

(** Three sections of one course, and a request for a single result. *)
Definition three_sections : list Offering :=
  [ plain_offering "11001" "CS 100" "001" [] None;
    plain_offering "11002" "CS 100" "002" [] None;
    plain_offering "11003" "CS 100" "003" [] None ].

Definition request_one_result : SolveRequest :=
  mkRequest ["CS 100"] None None None [] default_filters 1.

(** Two Monday meetings an hour apart, scored with [max_gap_min] zero and
    with [max_gap_min] thirty. *)
Definition monday_pair : list Offering :=
  [ plain_offering "1" "CS 100" "001" [mkMeeting MONDAY 650 700 None] None;
    plain_offering "2" "MATH 111" "001" [mkMeeting MONDAY 540 590 None] None ].

Definition request_max_gap (g : Z) : SolveRequest :=
  mkRequest ["CS 100"; "MATH 111"] None None None []
    (mkFilters [OPEN] None None None None None None None (Some g) true true) 500.

(** Two sections whose CRNs are not numeric, and the hashes of two
    interpreter processes that order them differently. *)
Definition lettered_sections : list Offering :=
  [ plain_offering "A" "CS 100" "001" [] None;
    plain_offering "B" "CS 100" "002" [] None ].

Definition hash_run1 (s : string) : Z := if String.eqb s "A" then 1 else 2.
Definition hash_run2 (s : string) : Z := if String.eqb s "A" then 2 else 1.

Definition request_cs100 : SolveRequest :=
  mkRequest ["CS 100"] None None None [] default_filters 500.

(** A section without meetings, a section in Newark, and a request that
    includes only the Newark campus. *)
Definition tba_section : Offering := plain_offering "15862" "CS 100" "001" [] None.

Definition newark_section : Offering :=
  plain_offering "15863" "CS 100" "002" [mkMeeting MONDAY 600 680 (Some "Newark CKB 101")] None.

Definition request_newark : SolveRequest :=
  mkRequest ["CS 100"] None None None []
    (mkFilters [OPEN] None (Some ["NEWARK"]) None None None None None None true true) 500.

(** Rows of the table. *)
Definition sample_row (crn days times : string) : Row :=
  mkRow crn "CS 100" "ROADMAP TO COMPUTING" "002" "202610" days times "CKB 101" "Open"
    "Face-to-Face" (Value 80) (Value 0) (Value 3%Q) "Smith" EmptyString EmptyString.

Definition row_backwards : Row := sample_row "11757" "M" "10:00 AM - 9:00 AM".
Definition row_tuesday : Row := sample_row "11757" "T" "9:00 AM - 9:50 AM".
Definition row_thursday : Row := sample_row "11757" "R" "9:00 AM - 9:50 AM".
Definition row_monday_wednesday : Row := sample_row "11758" "MW" "11:30 AM - 12:50 PM".

(** The third schedule returned for the two-course request: the two
    sections that meet on Monday and Wednesday mornings. *)
Definition third_returned : Schedule :=
  Eval vm_compute in
    nth 2 (solve_schedules no_hash sample_offerings request_two_courses)
          (mkSchedule [] 0%Q 0%Q).

Definition request_monday_blocked : SolveRequest :=
  mkRequest ["CS 100"; "MATH 111"] None None None [mkBlock MONDAY 600 660] default_filters 500.

Definition request_week_blocked : SolveRequest :=
  mkRequest ["CS 100"] None None None
    [mkBlock MONDAY 0 1440; mkBlock TUESDAY 0 1440; mkBlock WEDNESDAY 0 1440;
     mkBlock THURSDAY 0 1440; mkBlock FRIDAY 0 1440]
    default_filters 500.

Definition request_min_credits_8 : SolveRequest :=
  mkRequest ["CS 100"; "MATH 111"] None (Some 8%Q) None [] default_filters 500.

(** The first schedule returned when Monday from 10:00 to 11:00 is
    blocked. *)
Definition blocked_returned : Schedule :=
  Eval vm_compute in
    nth 0 (solve_schedules no_hash sample_offerings request_monday_blocked)
          (mkSchedule [] 0%Q 0%Q).

(** A request for one course between 10:00 and 16:00, and the first
    schedule returned for it. *)
Definition request_time_window : SolveRequest :=
  mkRequest ["CS 100"] None None None []
    (mkFilters [OPEN] None None None None None (Some 600) (Some 960) None true true) 500.

Definition window_returned : Schedule :=
  Eval vm_compute in
    nth 0 (solve_schedules no_hash sample_offerings request_time_window)
          (mkSchedule [] 0%Q 0%Q).

Definition first_returned : Schedule :=
  Eval vm_compute in
    nth 0 (solve_schedules no_hash sample_offerings request_two_courses)
          (mkSchedule [] 0%Q 0%Q).

(** A request for a course that the catalog does not offer. *)
Definition request_physics : SolveRequest :=
  mkRequest ["CS 100"; "PHYS 111"] None None None [] default_filters 500.

(** The third returned schedule with its offerings in the other order. *)
Definition third_returned_reversed : Schedule :=
  mkSchedule (rev (offerings third_returned)) (total_credits third_returned)
    (score third_returned).

(** Two offerings that share a CRN and meet on different days, and a
    third with its own CRN. *)
Definition tuesday_offering : Offering :=
  plain_offering "11757" "CS 100" "002" [mkMeeting TUESDAY 540 590 (Some "CKB 101")] (Some 3%Q).

Definition thursday_offering : Offering :=
  plain_offering "11757" "CS 100" "002" [mkMeeting THURSDAY 540 590 (Some "CKB 102")] None.

Definition other_offering : Offering :=
  plain_offering "11800" "CS 113" "004" [mkMeeting FRIDAY 600 680 None] (Some 3%Q).

Definition tuesday_thursday_offering : Offering :=
  set_meetings tuesday_offering
    [mkMeeting TUESDAY 540 590 (Some "CKB 101"); mkMeeting THURSDAY 540 590 (Some "CKB 102")].

(** ** The unit tests of the repository, evaluated on the embedding *)

Example parse_days_tuesday_thursday : parse_days "TR" = [TUESDAY; THURSDAY].
Proof. reflexivity. Qed.

Example parse_days_lowercase : parse_days "mw" = [MONDAY; WEDNESDAY].
Proof. reflexivity. Qed.

Example parse_days_tba : parse_days "TBA" = [] /\ parse_days EmptyString = [].
Proof. split; reflexivity. Qed.

Example parse_time_cases :
  parse_time "8:30 AM" = Some 510 /\ parse_time "2:45 PM" = Some 885 /\
  parse_time "12:00 PM" = Some 720 /\ parse_time "12:00 AM" = Some 0 /\
  parse_time "11:20 PM" = Some 1400 /\ parse_time "8:30 am" = Some 510 /\
  parse_time "TBA" = None /\ parse_time EmptyString = None.
Proof. repeat split; reflexivity. Qed.

Example parse_times_cases :
  parse_times "8:30 AM - 9:50 AM" = (Some 510, Some 590) /\
  parse_times "6:00 PM - 8:50 PM" = (Some 1080, Some 1250) /\
  parse_times "6:00 PM to 8:50 PM" = (Some 1080, Some 1250) /\
  parse_times "TBA" = (None, None).
Proof. repeat split; reflexivity. Qed.

(** The time pattern does not bound the hour or the minutes. *)
Example parse_time_out_of_day : parse_time "99:99 PM" = Some 6759.
Proof. reflexivity. Qed.

Example normalize_status_cases :
  normalize_status "Open" = OPEN /\ normalize_status "CLOSED" = CLOSED /\
  normalize_status "waitlist" = WAITLIST /\ normalize_status EmptyString = OPEN.
Proof. repeat split; reflexivity. Qed.

Example normalize_delivery_cases :
  normalize_delivery "Face-to-Face" EmptyString = IN_PERSON /\
  normalize_delivery "ONLINE" EmptyString = ONLINE /\
  normalize_delivery "Hybrid" EmptyString = HYBRID /\
  normalize_delivery EmptyString "Online Platform" = ONLINE.
Proof. repeat split; reflexivity. Qed.

Example extract_course_key_cases :
  extract_course_key "CS 100" = "CS 100" /\ extract_course_key "cs100" = "CS 100" /\
  extract_course_key "ACCT115" = "ACCT 115" /\ extract_course_key "PHYS 111a" = "PHYS 111A".
Proof. repeat split; reflexivity. Qed.

(** Scenario A: four schedules, each of seven credits. *)
Example scenario_two_courses :
  map (fun S => (map crn (offerings S), total_credits S))
      (solve_schedules no_hash sample_offerings request_two_courses)
  = [ (["11002"; "12001"], 7%Q); (["11001"; "12002"], 7%Q);
      (["11001"; "12001"], 7%Q); (["11002"; "12002"], 7%Q) ].
Proof. vm_compute. reflexivity. Qed.

(** Scenario B: the Monday block removes section 11001. *)
Example scenario_availability :
  map (fun S => map crn (offerings S))
      (solve_schedules no_hash sample_offerings request_monday_blocked)
  = [ ["11002"; "12001"]; ["11002"; "12002"] ].
Proof. vm_compute. reflexivity. Qed.

(** Scenarios C and D: nothing fits a blocked week, and eight credits
    cannot be reached. *)
Example scenario_infeasible :
  solve_schedules no_hash sample_offerings request_week_blocked = [] /\
  solve_schedules no_hash sample_offerings request_min_credits_8 = [].
Proof. split; vm_compute; reflexivity. Qed.

Example credit_window_6_8 :
  Forall (fun S => (6 <= total_credits S)%Q /\ (total_credits S <= 8)%Q)
         (solve_schedules no_hash sample_offerings request_credits_6_8).
Proof. vm_compute. repeat constructor; discriminate. Qed.

(** ** Properties of the data model *)

Lemma overlaps_comm (m1 m2 : Meeting) : overlaps m1 m2 = overlaps m2 m1.
Proof.
  unfold overlaps.
  destruct (decide (day m1 = day m2)) as [E|E], (decide (day m2 = day m1)) as [E'|E'];
    try congruence.
  f_equal.
  destruct (end_min m1 <=? start_min m2) eqn:A, (start_min m1 >=? end_min m2) eqn:B,
           (end_min m2 <=? start_min m1) eqn:C, (start_min m2 >=? end_min m1) eqn:D;
    try reflexivity; lia.
Qed.

(** C10: meeting overlap is symmetric: for every pair of meetings,
    [m1.overlaps(m2)] and [m2.overlaps(m1)] are the same boolean. *)
Theorem overlaps_symmetric (m1 m2 : Meeting) : overlaps m1 m2 = overlaps m2 m1.
Proof. exact (overlaps_comm m1 m2). Qed.

(** What [overlaps] decides, as the formula of the specification. *)
Lemma overlaps_false_iff (m1 m2 : Meeting) :
  overlaps m1 m2 = false <->
  day m1 <> day m2 \/ end_min m1 <= start_min m2 \/ start_min m1 >= end_min m2.
Proof.
  unfold overlaps. destruct (decide (day m1 = day m2)) as [E|E].
  - rewrite negb_false_iff, orb_true_iff. split.
    + intros [H|H]; [right; left | right; right]; lia.
    + intros [H|[H|H]]; [congruence | left | right]; lia.
  - split; [intros _; left; exact E | reflexivity].
Qed.

Lemma overlaps_with_false (o1 o2 : Offering) :
  overlaps_with o1 o2 = false <->
  forall m1 m2, In m1 (meetings o1) -> In m2 (meetings o2) -> overlaps m1 m2 = false.
Proof.
  unfold overlaps_with. split.
  - intros H m1 m2 H1 H2.
    destruct (overlaps m1 m2) eqn:E; [|reflexivity].
    assert (existsb (fun m1 => existsb (fun m2 => overlaps m1 m2) (meetings o2)) (meetings o1) = true) as X.
    { apply existsb_exists. exists m1. split; [exact H1|].
      apply existsb_exists. exists m2. split; assumption. }
    congruence.
  - intros H.
    destruct (existsb _ (meetings o1)) eqn:E; [|reflexivity].
    apply existsb_exists in E as (m1 & H1 & E).
    apply existsb_exists in E as (m2 & H2 & E).
    rewrite (H m1 m2 H1 H2) in E. discriminate.
Qed.

Lemma overlaps_with_symmetric (o1 o2 : Offering) :
  overlaps_with o1 o2 = false -> overlaps_with o2 o1 = false.
Proof.
  rewrite !overlaps_with_false. intros H m2 m1 H2 H1.
  rewrite overlaps_comm. auto.
Qed.

(** ** The stable sort and [take] keep the elements of the list *)

Lemma insert_sorted_In {A : Type} (leb : A -> A -> bool) (x y : A) (l : list A) :
  In y (insert_sorted leb x l) <-> y = x \/ In y l.
Proof.
  induction l as [|z l IH]; simpl.
  - intuition.
  - destruct (leb x z); simpl; [intuition|]. rewrite IH. intuition.
Qed.

Lemma sorted_In {A : Type} (leb : A -> A -> bool) (y : A) (l : list A) :
  In y (sorted leb l) <-> In y l.
Proof.
  induction l as [|x l IH]; simpl; [reflexivity|].
  rewrite insert_sorted_In, IH. intuition.
Qed.

Lemma insert_sorted_length {A : Type} (leb : A -> A -> bool) (x : A) (l : list A) :
  length (insert_sorted leb x l) = S (length l).
Proof.
  induction l as [|z l IH]; simpl; [reflexivity|].
  destruct (leb x z); simpl; congruence.
Qed.

Lemma sorted_length {A : Type} (leb : A -> A -> bool) (l : list A) :
  length (sorted leb l) = length l.
Proof.
  induction l as [|x l IH]; simpl; [reflexivity|].
  rewrite insert_sorted_length. congruence.
Qed.

Lemma take_In {A : Type} (n : nat) (y : A) (l : list A) : In y (take n l) -> In y l.
Proof.
  revert l; induction n as [|n IH]; intros [|x l]; simpl; try tauto.
  intros [H|H]; [left; exact H | right; auto].
Qed.

(** ** Invariants of the backtracking search *)

Lemma conflict_free_nil : conflict_free [].
Proof. intros i j o1 o2 _ H. rewrite lookup_nil in H. discriminate. Qed.

Lemma has_conflict_false (o : Offering) (schedule : list Offering) :
  _has_conflict o schedule = false ->
  forall existing, In existing schedule -> overlaps_with o existing = false.
Proof.
  unfold _has_conflict. intros H existing Hin.
  destruct (overlaps_with o existing) eqn:E; [|reflexivity].
  assert (existsb (fun existing => overlaps_with o existing) schedule = true) as X
    by (apply existsb_exists; eauto).
  congruence.
Qed.

Lemma conflict_free_snoc (schedule : list Offering) (o : Offering) :
  conflict_free schedule -> _has_conflict o schedule = false ->
  conflict_free (schedule ++ [o])%list.
Proof.
  intros Hcf Hno i j o1 o2 Hij H1 H2.
  destruct (decide (j < length schedule)%nat) as [Hj|Hj].
  - rewrite lookup_app_l in H1 by lia. rewrite lookup_app_l in H2 by lia. eauto.
  - assert (j = length schedule) as ->.
    { apply lookup_lt_Some in H2. rewrite length_app in H2. simpl in H2. lia. }
    rewrite lookup_app_l in H1 by lia.
    rewrite list_lookup_middle in H2 by reflexivity. injection H2 as <-.
    apply (has_conflict_false _ _ Hno). apply list_elem_of_In.
    eapply list_elem_of_lookup_2; eauto.
Qed.

Section SearchInvariant.
Variable str_hash : string -> Z.

Lemma leaf_request cur self : request (leaf str_hash cur self) = request self.
Proof. unfold leaf. repeat case_match; reflexivity. Qed.

Lemma leaf_offerings_by_course cur self :
  offerings_by_course (leaf str_hash cur self) = offerings_by_course self.
Proof. unfold leaf. repeat case_match; reflexivity. Qed.

(** What a leaf does to the buffer: nothing, or one schedule built from
    the current assignment is appended, and then neither credit test
    fired. *)
Lemma leaf_results cur self :
  results (leaf str_hash cur self) = results self \/
  (results (leaf str_hash cur self) =
     (results self ++ [mkSchedule cur (sum_credits cur) (_compute_score str_hash self cur)])%list
   /\ Q_truthy (min_credits (request self))
      && Qltb (sum_credits cur) (default 0%Q (min_credits (request self))) = false
   /\ Q_truthy (max_credits (request self))
      && Qltb (default 0%Q (max_credits (request self))) (sum_credits cur) = false).
Proof.
  unfold leaf.
  destruct (Q_truthy (min_credits (request self)) && _) eqn:Hmin; [left; reflexivity|].
  destruct (Q_truthy (max_credits (request self)) && _) eqn:Hmax; [left; reflexivity|].
  destruct (decide _); [left; reflexivity|].
  right. match goal with |- context [if ?c then _ else _] => destruct c end; auto.
Qed.

(** The induction principle of the search: a property [R] of schedules
    holds of the whole buffer when every leaf reached through checked
    extensions of the assignment establishes it. *)
Lemma backtrack_from_invariant (req : SolveRequest)
    (P : list Offering -> Prop) (R : Schedule -> Prop) :
  (forall cur o, P cur -> _has_conflict o cur = false -> P (cur ++ [o])%list) ->
  (forall cur self, request self = req -> P cur ->
     Forall R (results self) -> Forall R (results (leaf str_hash cur self))) ->
  forall remaining cur self,
    request self = req -> P cur -> Forall R (results self) ->
    request (_backtrack_from str_hash remaining cur self) = req /\
    Forall R (results (_backtrack_from str_hash remaining cur self)).
Proof.
  intros Hstep Hleaf. induction remaining as [|ck remaining IH]; intros cur self Hreq HP HR.
  - simpl. split; [rewrite leaf_request; exact Hreq | eauto].
  - simpl. generalize (dd_get ck (offerings_by_course self)). intros candidates.
    revert self Hreq HR. induction candidates as [|o candidates IHc]; intros self Hreq HR.
    + simpl. auto.
    + simpl. destruct (_has_conflict o cur) eqn:Hc; [apply IHc; assumption|].
      destruct (_conflicts_with_availability self o); [apply IHc; assumption|].
      destruct (IH (cur ++ [o])%list self Hreq (Hstep _ _ HP Hc) HR) as [Hreq' HR'].
      apply IHc; assumption.
Qed.

(** Every schedule that [solve_schedules] returns is in the buffer that
    the search built from the initial solver. *)
Lemma solve_schedules_in_search (catalog : list Offering) (request : SolveRequest) (S : Schedule) :
  In S (solve_schedules str_hash catalog request) ->
  exists required_courses,
    In S (results (_backtrack_from str_hash required_courses [] (init catalog request))).
Proof.
  unfold solve_schedules, solve. destruct (existsb _ _); simpl; [tauto|].
  intros H. apply take_In, sorted_In in H. unfold _backtrack in H. rewrite drop_0 in H.
  eauto.
Qed.

Lemma search_conflict_free (catalog : list Offering) (req : SolveRequest) (remaining : list string) :
  Forall (fun S => conflict_free (offerings S))
         (results (_backtrack_from str_hash remaining [] (init catalog req))).
Proof.
  apply (backtrack_from_invariant req conflict_free (fun S => conflict_free (offerings S))).
  - apply conflict_free_snoc.
  - intros cur self _ Hcf HR.
    destruct (leaf_results cur self) as [-> | (-> & _ & _)]; [exact HR|].
    apply Forall_app. split; [exact HR|]. constructor; [exact Hcf | constructor].
  - reflexivity.
  - apply conflict_free_nil.
  - constructor.
Qed.

End SearchInvariant.

(** C1: in every schedule that [solve_schedules] returns, two offerings at
    distinct positions have no overlapping meetings: any meeting of one and
    any meeting of the other are on different days, or one ends at or
    before the start of the other. *)
Theorem solve_schedules_no_overlap (str_hash : string -> Z)
    (catalog : list Offering) (request : SolveRequest) (S : Schedule)
    (i j : nat) (o1 o2 : Offering) (m1 m2 : Meeting) :
  In S (solve_schedules str_hash catalog request) ->
  i <> j ->
  offerings S !! i = Some o1 -> offerings S !! j = Some o2 ->
  In m1 (meetings o1) -> In m2 (meetings o2) ->
  day m1 <> day m2 \/ end_min m1 <= start_min m2 \/ start_min m1 >= end_min m2.
Proof.
  intros HS Hij H1 H2 Hm1 Hm2.
  apply solve_schedules_in_search in HS as [required HS].
  pose proof (search_conflict_free str_hash catalog request required) as Hall.
  rewrite List.Forall_forall in Hall. specialize (Hall S HS).
  apply overlaps_false_iff.
  destruct (decide (i < j)%nat) as [Hlt|Hge].
  - pose proof (Hall i j o1 o2 Hlt H1 H2) as Hov.
    apply overlaps_with_symmetric in Hov.
    rewrite overlaps_with_false in Hov. auto.
  - assert (j < i)%nat as Hlt by lia.
    pose proof (Hall j i o2 o1 Hlt H2 H1) as Hov.
    rewrite overlaps_with_false in Hov. auto.
Qed.

Lemma solve_schedules_no_overlap_witness :
  In third_returned (solve_schedules no_hash sample_offerings request_two_courses) /\
  map crn (offerings third_returned) = ["11001"; "12001"] /\
  (day (mkMeeting MONDAY 600 680 (Some "CKB 101")) <> day (mkMeeting MONDAY 540 590 None) \/
   end_min (mkMeeting MONDAY 600 680 (Some "CKB 101")) <= start_min (mkMeeting MONDAY 540 590 None) \/
   start_min (mkMeeting MONDAY 600 680 (Some "CKB 101")) >= end_min (mkMeeting MONDAY 540 590 None)).
Proof.
  assert (In third_returned (solve_schedules no_hash sample_offerings request_two_courses))
    as HS by (vm_compute; right; right; left; reflexivity).
  split; [exact HS|]. split; [reflexivity|].
  apply (solve_schedules_no_overlap no_hash sample_offerings request_two_courses
           third_returned 0 1
           (mkOffering "11001" "CS 100" "001" "Intro to CS" None
              [mkMeeting MONDAY 600 680 (Some "CKB 101");
               mkMeeting WEDNESDAY 600 680 (Some "CKB 101")]
              OPEN (Some 40) (Some 30) None IN_PERSON (Some 3%Q) None None)
           (mkOffering "12001" "MATH 111" "001" "Calculus I" None
              [mkMeeting MONDAY 540 590 None; mkMeeting WEDNESDAY 540 590 None;
               mkMeeting FRIDAY 540 590 None]
              OPEN (Some 35) (Some 20) None IN_PERSON (Some 4%Q) None None)
           _ _ HS).
  - lia.
  - reflexivity.
  - reflexivity.
  - simpl. left. reflexivity.
  - simpl. left. reflexivity.
Defined.

(** ** The credit window *)

(** C2, at [max_credits = 0]: the only schedule of a three-credit section
    is returned although its total is above the maximum that is set. *)
Theorem max_credits_zero_not_enforced (str_hash : string -> Z) :
  exists S,
    solve_schedules str_hash cs100_only request_max_credits_0 = [S] /\
    max_credits request_max_credits_0 = Some 0%Q /\
    (total_credits S == 3)%Q /\ ~ (total_credits S <= 0)%Q.
Proof.
  eexists. split; [vm_compute; reflexivity|].
  split; [reflexivity|]. split; [reflexivity|].
  intros H. vm_compute in H. apply H. reflexivity.
Qed.

(** ** The result buffer *)

(** C3, with [max_results = 1]: the buffer holds three schedules when the
    search ends, one more than twice [max_results]. *)
Theorem result_buffer_exceeds_bound (str_hash : string -> Z) :
  max_results request_one_result = 1%nat /\
  length (result_buffer str_hash three_sections request_one_result) = 3%nat.
Proof. split; [reflexivity | vm_compute; reflexivity]. Qed.

(** ** The gap term *)

(** C6, at [max_gap_min = 0]: a gap of sixty minutes, which is above the
    maximum that is set, counts sixty and not six hundred; with
    [max_gap_min = 30] the same gap counts six hundred. *)
Theorem max_gap_zero_not_penalized :
  _compute_total_gaps (init [] (request_max_gap 0)) monday_pair = 60 /\
  _compute_total_gaps (init [] (request_max_gap 30)) monday_pair = 600.
Proof. split; vm_compute; reflexivity. Qed.

(** ** The tie-break *)

(** C7, with CRNs that are not numeric: the hashes of two interpreter
    processes give two different answers to the same catalog and request. *)
Theorem solve_depends_on_hash :
  solve_schedules hash_run1 lettered_sections request_cs100
  <> solve_schedules hash_run2 lettered_sections request_cs100.
Proof. vm_compute. discriminate. Qed.


(** The list that is returned is cut to [max_results], whatever the size
    of the buffer. *)
Lemma solve_schedules_bounded (str_hash : string -> Z)
    (catalog : list Offering) (req : SolveRequest) :
  (length (solve_schedules str_hash catalog req) <= max_results req)%nat.
Proof.
  unfold solve_schedules, solve. destruct (existsb _ _); simpl; [lia|].
  rewrite length_take. unfold _backtrack. rewrite drop_0.
  assert (forall remaining cur self,
            request (_backtrack_from str_hash remaining cur self) = request self) as Hreq.
  { intros remaining cur self.
    apply (backtrack_from_invariant str_hash (request self) (fun _ => True) (fun _ => True));
      auto using Forall_true. }
  rewrite Hreq. simpl. lia.
Qed.

(** Away from zero the gap term is the one of the specification. *)
Lemma day_gaps_spec (max_gap : option Z) (meetings : list (Z * Z)) :
  max_gap <> Some 0 -> day_gaps max_gap meetings = spec_day_gaps max_gap meetings.
Proof.
  intros Hnz. induction meetings as [|prev [|next rest] IH]; try reflexivity.
  change (day_gaps max_gap (prev :: next :: rest))
    with ((if fst next - snd prev >? 0 then
             if Z_truthy max_gap && (fst next - snd prev >? default 0 max_gap)
             then (fst next - snd prev) * 10 else fst next - snd prev
           else 0) + day_gaps max_gap (next :: rest)).
  change (spec_day_gaps max_gap (prev :: next :: rest))
    with (spec_gap_term max_gap (fst next - snd prev) + spec_day_gaps max_gap (next :: rest)).
  rewrite IH. f_equal. unfold spec_gap_term.
  destruct (fst next - snd prev >? 0); [|reflexivity].
  destruct max_gap as [g|]; simpl; [|reflexivity].
  destruct (g =? 0) eqn:Hg; [apply Z.eqb_eq in Hg; congruence|]. simpl.
  destruct (fst next - snd prev >? g); lia.
Qed.

(** ** The filter engine *)

Lemma dd_get_append {K V : Type} `{EqDecision K} (k k' : K) (v : V) (d : list (K * list V)) :
  dd_get k (dd_append k' v d) = if decide (k' = k) then (dd_get k d ++ [v])%list else dd_get k d.
Proof.
  induction d as [|[k0 vs] d IH]; simpl.
  - destruct (decide (k' = k)); reflexivity.
  - destruct (decide (k0 = k')) as [E|E]; simpl.
    + subst k0. destruct (decide (k' = k)); reflexivity.
    + destruct (decide (k0 = k)) as [E'|E'].
      * subst k0. destruct (decide (k' = k)); [congruence | reflexivity].
      * exact IH.
Qed.

(** Grouping by key keeps, under each key, the elements with that key in
    their order. *)
Lemma dd_get_group {K V : Type} `{EqDecision K} (key : V -> K) (k : K) (l : list V)
    (d : list (K * list V)) :
  dd_get k (fold_left (fun d v => dd_append (key v) v d) l d)
  = (dd_get k d ++ filter (fun v => key v = k) l)%list.
Proof.
  revert d. induction l as [|v l IH]; intros d; simpl.
  - rewrite app_nil_r. reflexivity.
  - rewrite IH, dd_get_append. rewrite filter_cons.
    destruct (decide (key v = k)); [rewrite <- app_assoc|]; reflexivity.
Qed.

Lemma dd_get_prefilter (filters : ScheduleFilters) (k : string)
    (d : list (string * list Offering)) :
  dd_get k (_prefilter_offerings filters d)
  = List.filter (passes_filters filters) (dd_get k d).
Proof.
  induction d as [|[k0 vs] d IH]; simpl; [reflexivity|].
  destruct (decide (k0 = k)); [reflexivity | exact IH].
Qed.

(** The candidates of a course are the offerings of the catalog with that
    course key that pass the filters, in catalog order. *)
Lemma candidates_spec (catalog : list Offering) (req : SolveRequest) (ck : string) :
  candidates catalog req ck
  = List.filter (passes_filters (filters req)) (filter (fun o => course_key o = ck) catalog).
Proof.
  unfold candidates, init. simpl. rewrite dd_get_prefilter. f_equal.
  apply (dd_get_group course_key ck catalog []).
Qed.

Lemma candidates_In (catalog : list Offering) (req : SolveRequest) (ck : string) (o : Offering) :
  In o (candidates catalog req ck) <->
  In o catalog /\ course_key o = ck /\ passes_filters (filters req) o = true.
Proof.
  rewrite candidates_spec, filter_In, <- list_elem_of_In, list_elem_of_filter, list_elem_of_In.
  tauto.
Qed.

(** The campus filters leave an offering without meetings alone. *)
Lemma passes_filters_no_meetings (f : ScheduleFilters) (o : Offering) :
  meetings o = [] -> passes_filters f o = passes_filters (without_campus f) o.
Proof.
  intros Hm. unfold passes_filters, valid_time. simpl. rewrite Hm. simpl.
  rewrite !andb_false_r. reflexivity.
Qed.

(** With a non-empty [campus_include], an offering with meetings passes
    only through a meeting whose location matches. *)
Lemma passes_filters_campus_include (f : ScheduleFilters) (o : Offering) :
  passes_filters f o = true -> items (campus_include f) <> [] -> meetings o <> [] ->
  exists m loc campus,
    In m (meetings o) /\ location m = Some loc /\ loc <> EmptyString /\
    In campus (items (campus_include f)) /\
    Py.contains (Py.lower campus) (Py.lower loc) = true.
Proof.
  intros Hpass Hgiven Hms.
  unfold passes_filters in Hpass.
  repeat match type of Hpass with
         | (if ?c then false else _) = true => destruct c eqn:?; [discriminate|]
         end.
  match goal with
  | H : nonempty (items (campus_include _)) && _ && negb ?e = false |- _ =>
      destruct e eqn:Hex;
      [| destruct (items (campus_include f)); [congruence|];
         destruct (meetings o); [congruence | discriminate H]]
  end.
  apply existsb_exists in Hex as (m & Hmin & Hloc).
  unfold location_matches in Hloc. destruct (location m) as [loc|] eqn:Hl; [|discriminate].
  apply andb_true_iff in Hloc as [Ht Hany].
  apply existsb_exists in Hany as (campus & Hc & Hcontains).
  exists m, loc, campus. repeat split; try assumption.
  intros ->. discriminate.
Qed.

(** C4, as the claim states it, fails: with [campus_include] given, the
    section without meetings is still a candidate of its course. *)
Lemma campus_include_keeps_no_meetings :
  ~ (forall (catalog : list Offering) (req : SolveRequest) (o : Offering),
       is_Some (campus_include (filters req)) -> meetings o = [] ->
       ~ In o (candidates catalog req (course_key o))).
Proof.
  intros H.
  apply (H [tba_section; newark_section] request_newark tba_section).
  - eexists. reflexivity.
  - reflexivity.
  - vm_compute. left. reflexivity.
Qed.

(** C4, amended: the campus filters do not test an offering whose meetings
    list is empty, which is a candidate of its course exactly when it is
    one without them; and when [campus_include] is given and not empty, a
    candidate that has meetings has one whose location is present, not
    empty, and contains, case-insensitively, an included substring. *)
Theorem campus_filters (catalog : list Offering) (req : SolveRequest)
    (ck : string) (o : Offering) :
  (meetings o = [] ->
   (In o (candidates catalog req ck) <->
    In o (candidates catalog (request_without_campus req) ck))) /\
  (In o (candidates catalog req ck) ->
   items (campus_include (filters req)) <> [] -> meetings o <> [] ->
   exists m loc campus,
     In m (meetings o) /\ location m = Some loc /\ loc <> EmptyString /\
     In campus (items (campus_include (filters req))) /\
     Py.contains (Py.lower campus) (Py.lower loc) = true).
Proof.
  split.
  - intros Hm. rewrite !candidates_In. simpl.
    rewrite (passes_filters_no_meetings _ _ Hm). reflexivity.
  - intros Hin. apply candidates_In in Hin as (_ & _ & Hpass).
    apply passes_filters_campus_include, Hpass.
Qed.

Lemma campus_filters_witness :
  In tba_section (candidates [tba_section; newark_section] request_newark "CS 100") /\
  exists m loc campus,
     In m (meetings newark_section) /\ location m = Some loc /\ loc <> EmptyString /\
     In campus (items (campus_include (filters request_newark))) /\
     Py.contains (Py.lower campus) (Py.lower loc) = true.
Proof.
  split.
  - apply (proj1 (campus_filters [tba_section; newark_section] request_newark
                    "CS 100" tba_section)).
    + reflexivity.
    + vm_compute. left. reflexivity.
  - apply (proj2 (campus_filters [tba_section; newark_section] request_newark
                    "CS 100" newark_section)).
    + vm_compute. right. left. reflexivity.
    + vm_compute. discriminate.
    + vm_compute. discriminate.
Defined.

(** ** The normalizer: times *)

Lemma digit_val_bounds (c : ascii) : Py.is_digit c = true -> 0 <= Py.digit_val c <= 9.
Proof.
  unfold Py.is_digit, Py.digit_val. intros H.
  apply andb_true_iff in H as [H1 H2].
  apply N.leb_le in H1, H2. lia.
Qed.

Lemma match_minutes_groups (hour s g1 g2 g3 : string) :
  match_minutes hour s = Some (g1, g2, g3) ->
  g1 = hour /\ 0 <= Py.int g2 <= 99 /\ In g3 ["AM"; "PM"; "am"; "pm"].
Proof.
  unfold match_minutes. destruct s as [|m1 [|m2 rest]]; try discriminate.
  destruct (Py.is_digit m1) eqn:H1; [|discriminate].
  destruct (Py.is_digit m2) eqn:H2; [|discriminate]. simpl.
  destruct (match_meridiem rest) as [p|] eqn:Hp; [|discriminate].
  intros [= <- <- <-]. split; [reflexivity|]. split.
  - apply digit_val_bounds in H1, H2. unfold Py.int. simpl. lia.
  - unfold match_meridiem in Hp.
    repeat match type of Hp with
           | (if ?c then _ else _) = _ => destruct c
           end; inversion Hp; simpl; tauto.
Qed.

(** The groups of a matched time: an hour of one or two digits, two digits
    of minutes, and the meridiem. *)
Lemma match_time_groups (s g1 g2 g3 : string) :
  match_time s = Some (g1, g2, g3) ->
  0 <= Py.int g1 <= 99 /\ 0 <= Py.int g2 <= 99 /\ In g3 ["AM"; "PM"; "am"; "pm"].
Proof.
  unfold match_time. destruct s as [|d1 [|d2 rest]]; try discriminate.
  destruct (Py.is_digit d1) eqn:H1; [|discriminate].
  destruct (Py.is_digit d2) eqn:H2.
  - destruct rest as [|c rest]; [discriminate|].
    destruct (Ascii.eqb c ":") eqn:Hc.
    + apply Ascii.eqb_eq in Hc. subst c. intros H.
      apply match_minutes_groups in H as (-> & Hg2 & Hg3).
      apply digit_val_bounds in H1, H2. unfold Py.int. simpl. split; [lia | auto].
    + intros H. exfalso.
      destruct c as [[] [] [] [] [] [] [] []]; simpl in Hc; discriminate.
  - destruct (Ascii.eqb d2 ":"); [|discriminate]. intros H.
    apply match_minutes_groups in H as (-> & Hg2 & Hg3).
    apply digit_val_bounds in H1. unfold Py.int. simpl. split; [lia | auto].
Qed.

Lemma parse_time_nonneg (s : string) (t : Z) : parse_time s = Some t -> 0 <= t.
Proof.
  unfold parse_time. destruct (blank_or_tba s); [discriminate|].
  destruct (match_time (Py.strip s)) as [[[g1 g2] g3]|] eqn:Hm; [|discriminate].
  apply match_time_groups in Hm as (H1 & H2 & _).
  intros [= <-].
  repeat match goal with |- context [if ?c then _ else _] => destruct c end; lia.
Qed.

(** A time written on a twelve-hour clock, with an hour up to 12 and
    minutes up to 59, parses to a minute of the day. *)
Lemma parse_time_clock (s g1 g2 g3 : string) (t : Z) :
  parse_time s = Some t -> match_time (Py.strip s) = Some (g1, g2, g3) ->
  Py.int g1 <= 12 -> Py.int g2 <= 59 -> 0 <= t < 1440.
Proof.
  unfold parse_time. destruct (blank_or_tba s); [discriminate|].
  intros Ht Hm. rewrite Hm in Ht. apply match_time_groups in Hm as (H1 & H2 & _).
  injection Ht as <-. intros Hh Hmin.
  destruct (String.eqb (Py.upper g3) "PM" && negb (Py.int g1 =? 12)) eqn:Hpm.
  - apply andb_true_iff in Hpm as [_ Hne]. apply negb_true_iff, Z.eqb_neq in Hne. lia.
  - destruct (String.eqb (Py.upper g3) "AM" && (Py.int g1 =? 12)); lia.
Qed.

Lemma build_meetings_In (days : list DayOfWeek) (times : option Z * option Z)
    (loc : string) (m : Meeting) :
  In m (build_meetings days times loc) ->
  In (day m) days /\ times = (Some (start_min m), Some (end_min m)) /\
  location m = Py.or_none loc.
Proof.
  unfold build_meetings. destruct days as [|d days]; [intros []|].
  destruct times as [[s|] [e|]]; [| intros [] ..].
  intros H. apply in_map_iff in H as (d' & <- & Hd). simpl. auto.
Qed.

Lemma normalize_csv_row_meetings (row : Row) (o : Offering) :
  normalize_csv_row row = Some o ->
  meetings o = build_meetings (parse_days (Py.strip (row_Days row)))
                 (parse_times (Py.strip (row_Times row))) (Py.strip (row_Location row)).
Proof.
  unfold normalize_csv_row.
  destruct (negb (Py.truthy (Py.strip (row_CRN row)))); [discriminate|].
  destruct (negb (Py.truthy (extract_course_key (Py.strip (row_Course row))))); [discriminate|].
  destruct (convert (row_Max row)); [|discriminate].
  destruct (convert (row_Now row)); [|discriminate].
  destruct (convert (row_Credits row)); [|discriminate].
  simpl. intros [= <-]. reflexivity.
Qed.

Lemma parse_times_nonneg (s : string) (a b : Z) :
  parse_times s = (Some a, Some b) -> 0 <= a /\ 0 <= b.
Proof.
  unfold parse_times. destruct (blank_or_tba s); [discriminate|].
  destruct (split_range (Py.strip s)) as [[p0 p1]|]; [|discriminate].
  intros [= Ha Hb]. split; eapply parse_time_nonneg; eassumption.
Qed.

(** C5, as the claim states it, fails: a row whose range is written
    backwards yields a meeting that starts after it ends. *)
Lemma normalized_meeting_may_end_before_start :
  ~ (forall (row : Row) (o : Offering) (m : Meeting),
       normalize_csv_row row = Some o -> In m (meetings o) ->
       0 <= start_min m /\ start_min m < end_min m /\ end_min m <= 1440).
Proof.
  intros H.
  destruct (H row_backwards
              (mkOffering "11757" "CS 100" "002" "ROADMAP TO COMPUTING" (Some "202610")
                 [mkMeeting MONDAY 600 540 (Some "CKB 101")] OPEN (Some 80) (Some 0)
                 (Some "Smith") IN_PERSON (Some 3%Q) None None)
              (mkMeeting MONDAY 600 540 (Some "CKB 101")))
    as (_ & Hlt & _).
  - vm_compute. reflexivity.
  - left. reflexivity.
  - simpl in Hlt. lia.
Qed.

(** C5, amended: every meeting that the normalizer produces from a row has
    a day of the row's day string and, as its start and end, the two times
    parsed from the row's time range in the order they are written; both
    are non-negative.  That the start precedes the end is not required. *)
Theorem normalized_meeting_times (row : Row) (o : Offering) (m : Meeting) :
  normalize_csv_row row = Some o -> In m (meetings o) ->
  In (day m) (parse_days (Py.strip (row_Days row))) /\
  parse_times (Py.strip (row_Times row)) = (Some (start_min m), Some (end_min m)) /\
  0 <= start_min m /\ 0 <= end_min m.
Proof.
  intros Hrow Hm. rewrite (normalize_csv_row_meetings _ _ Hrow) in Hm.
  apply build_meetings_In in Hm as (Hd & Ht & _).
  split; [exact Hd|]. split; [exact Ht|]. exact (parse_times_nonneg _ _ _ Ht).
Qed.

Lemma normalized_meeting_times_witness :
  normalize_csv_row row_monday_wednesday
  = Some (mkOffering "11758" "CS 100" "002" "ROADMAP TO COMPUTING" (Some "202610")
            [mkMeeting MONDAY 690 770 (Some "CKB 101");
             mkMeeting WEDNESDAY 690 770 (Some "CKB 101")]
            OPEN (Some 80) (Some 0) (Some "Smith") IN_PERSON (Some 3%Q) None None) /\
  In WEDNESDAY (parse_days (Py.strip (row_Days row_monday_wednesday))) /\
  parse_times (Py.strip (row_Times row_monday_wednesday)) = (Some 690, Some 770) /\
  0 <= 690 /\ 0 <= 770.
Proof.
  assert (normalize_csv_row row_monday_wednesday
          = Some (mkOffering "11758" "CS 100" "002" "ROADMAP TO COMPUTING" (Some "202610")
                    [mkMeeting MONDAY 690 770 (Some "CKB 101");
                     mkMeeting WEDNESDAY 690 770 (Some "CKB 101")]
                    OPEN (Some 80) (Some 0) (Some "Smith") IN_PERSON (Some 3%Q) None None))
    as H1 by (vm_compute; reflexivity).
  split; [exact H1|].
  apply (normalized_meeting_times _ _ (mkMeeting WEDNESDAY 690 770 (Some "CKB 101")) H1).
  simpl. right. left. reflexivity.
Defined.

(** ** The normalizer: merging by CRN and deduplication *)

Lemma set_meetings_crn (o : Offering) (ms : list Meeting) : crn (set_meetings o ms) = crn o.
Proof. reflexivity. Qed.

Lemma set_meetings_id (o : Offering) : set_meetings o (meetings o) = o.
Proof. destruct o; reflexivity. Qed.

Lemma set_meetings_back (o : Offering) (ms : list Meeting) :
  set_meetings (set_meetings o ms) (meetings o) = o.
Proof. destruct o; reflexivity. Qed.

Lemma merge_meetings_crn (existing offering : Offering) :
  crn (merge_meetings existing offering) = crn existing.
Proof.
  unfold merge_meetings. generalize (meetings offering). intros ms. revert existing.
  induction ms as [|m ms IH]; intros existing; simpl; [reflexivity|].
  destruct (meeting_exists m (meetings existing)); rewrite IH; reflexivity.
Qed.

Lemma meeting_exists_In (m : Meeting) (ms : list Meeting) :
  In m ms -> meeting_exists m ms = true.
Proof.
  intros H. apply existsb_exists. exists m. split; [exact H|].
  rewrite bool_decide_eq_true_2 by reflexivity. rewrite !Z.eqb_refl. reflexivity.
Qed.

(** Merging an offering into one that already has all its meetings changes
    nothing. *)
Lemma merge_meetings_included (existing offering : Offering) :
  (forall m, In m (meetings offering) -> In m (meetings existing)) ->
  merge_meetings existing offering = existing.
Proof.
  unfold merge_meetings. generalize (meetings offering). intros ms.
  induction ms as [|m ms IH]; intros Hincl; simpl; [reflexivity|].
  rewrite meeting_exists_In by (apply Hincl; left; reflexivity).
  apply IH. intros m' H'. apply Hincl. right. exact H'.
Qed.

(** Deduplication of a list whose CRNs are pairwise distinct keeps it. *)
Lemma dedup_fold_distinct (l : list Offering)
    (seen : gset (string * list (DayOfWeek * Z * Z))) (unique : list Offering) :
  NoDup (map crn l) ->
  (forall sig, sig ∈ seen -> ~ In (fst sig) (map crn l)) ->
  snd (fold_left dedup_step l (seen, unique)) = (unique ++ l)%list.
Proof.
  revert seen unique. induction l as [|o l IH]; intros seen unique Hnd Hseen; simpl.
  - rewrite app_nil_r. reflexivity.
  - apply NoDup_cons in Hnd as [Hfresh Hnd].
    destruct (decide ((crn o, meeting_sig o) ∈ seen)) as [Hin|Hnot].
    + exfalso. apply (Hseen _ Hin). left. reflexivity.
    + rewrite IH.
      * rewrite <- app_assoc. reflexivity.
      * exact Hnd.
      * intros sig Hsig Hl. apply elem_of_union in Hsig as [Hsig|Hsig].
        -- apply elem_of_singleton in Hsig. subst sig. simpl in Hl.
           apply Hfresh. apply list_elem_of_In. exact Hl.
        -- apply (Hseen _ Hsig). right. exact Hl.
Qed.

Lemma deduplicate_distinct (l : list Offering) :
  NoDup (map crn l) -> deduplicate_offerings l = l.
Proof.
  intros Hnd. unfold deduplicate_offerings.
  rewrite dedup_fold_distinct; [reflexivity | exact Hnd |].
  intros sig Hsig. apply not_elem_of_empty in Hsig. contradiction.
Qed.

Lemma crn_map_step_keys (o : Offering) (crn_map : list (string * Offering)) :
  map fst (crn_map_step o crn_map)
  = if decide (crn o ∈ map fst crn_map) then map fst crn_map
    else (map fst crn_map ++ [crn o])%list.
Proof.
  induction crn_map as [|[k existing] rest IH]; simpl.
  - destruct (decide (crn o ∈ [])) as [H|H]; [inversion H | reflexivity].
  - destruct (decide (k = crn o)) as [E|E]; simpl.
    + subst k. rewrite decide_True by (left). reflexivity.
    + rewrite IH. destruct (decide (crn o ∈ map fst rest)) as [H|H].
      * rewrite decide_True by (right; exact H). reflexivity.
      * rewrite decide_False; [reflexivity|].
        intros H'. apply elem_of_cons in H' as [H'|H']; [congruence | contradiction].
Qed.

Lemma crn_map_step_ok (o : Offering) (crn_map : list (string * Offering)) :
  crn_map_ok crn_map -> crn_map_ok (crn_map_step o crn_map).
Proof.
  intros [Hkeys Hnd]. split.
  - clear Hnd. induction crn_map as [|[k existing] rest IH]; simpl.
    + constructor; [reflexivity | constructor].
    + apply Forall_cons in Hkeys as [Hk Hrest]. simpl in Hk.
      destruct (decide (k = crn o)); constructor; simpl; auto.
      rewrite merge_meetings_crn. exact Hk.
  - rewrite crn_map_step_keys. destruct (decide _) as [H|H]; [exact Hnd|].
    apply NoDup_app. split; [exact Hnd|]. split.
    + intros x Hx Hx'. apply list_elem_of_singleton in Hx'. subst x. contradiction.
    + apply NoDup_singleton.
Qed.

Lemma crn_map_fold_ok (l : list Offering) (crn_map : list (string * Offering)) :
  crn_map_ok crn_map ->
  crn_map_ok (fold_left (fun crn_map offering => crn_map_step offering crn_map) l crn_map).
Proof.
  revert crn_map. induction l as [|o l IH]; intros crn_map H; simpl; [exact H|].
  apply IH, crn_map_step_ok, H.
Qed.

(** The merged list has pairwise distinct CRNs. *)
Lemma merge_offerings_by_crn_distinct (l : list Offering) :
  NoDup (map crn (merge_offerings_by_crn l)).
Proof.
  unfold merge_offerings_by_crn.
  destruct (crn_map_fold_ok l []) as [Hkeys Hnd]; [split; constructor|].
  revert Hkeys Hnd. generalize (fold_left (fun crn_map offering => crn_map_step offering crn_map) l []).
  intros crn_map Hkeys Hnd.
  replace (map crn (map snd crn_map)) with (map fst crn_map); [exact Hnd|].
  induction Hkeys as [|[k v] rest Hk _ IH]; simpl in *; [reflexivity|].
  apply NoDup_cons in Hnd as [_ Hnd]. rewrite IH by exact Hnd. congruence.
Qed.

(** A first pass over a list with distinct CRNs enters each offering under
    its CRN, in order. *)
Lemma crn_map_step_fresh (o : Offering) (crn_map : list (string * Offering)) :
  ~ In (crn o) (map fst crn_map) ->
  crn_map_step o crn_map = (crn_map ++ [(crn o, o)])%list.
Proof.
  induction crn_map as [|[k existing] rest IH]; simpl; intros H; [reflexivity|].
  destruct (decide (k = crn o)) as [E|E]; [exfalso; auto|].
  rewrite IH by tauto. reflexivity.
Qed.

Lemma crn_map_fold_fresh (l : list Offering) (crn_map : list (string * Offering)) :
  NoDup (map crn l) ->
  (forall o, In o l -> ~ In (crn o) (map fst crn_map)) ->
  fold_left (fun crn_map offering => crn_map_step offering crn_map) l crn_map
  = (crn_map ++ map (fun o => (crn o, o)) l)%list.
Proof.
  revert crn_map. induction l as [|o l IH]; intros crn_map Hnd Hfresh; simpl.
  - rewrite app_nil_r. reflexivity.
  - apply NoDup_cons in Hnd as [Ho Hnd].
    rewrite crn_map_step_fresh by (apply Hfresh; left; reflexivity).
    rewrite IH, <- app_assoc; [reflexivity | exact Hnd |].
    intros o' Ho' Hin. rewrite map_app, in_app_iff in Hin. destruct Hin as [Hin|Hin].
    + apply (Hfresh o'); [right; exact Ho' | exact Hin].
    + simpl in Hin. destruct Hin as [Hin|[]]. apply Ho. rewrite Hin.
      apply list_elem_of_In, in_map, Ho'.
Qed.

(** A second pass over the same offerings finds each one already entered
    and adds no meeting. *)
Lemma crn_map_step_present (l : list Offering) (o : Offering) :
  NoDup (map crn l) -> In o l ->
  crn_map_step o (map (fun o => (crn o, o)) l) = map (fun o => (crn o, o)) l.
Proof.
  induction l as [|a l IH]; intros Hnd Hin; [destruct Hin|]. simpl.
  apply NoDup_cons in Hnd as [Ha Hnd].
  destruct (decide (crn a = crn o)) as [E|E].
  - assert (a = o) as ->.
    { destruct Hin as [Hin|Hin]; [exact Hin|]. exfalso. apply Ha. rewrite E.
      apply list_elem_of_In, in_map, Hin. }
    rewrite merge_meetings_included by auto. reflexivity.
  - destruct Hin as [Hin|Hin]; [congruence|]. rewrite IH by assumption. reflexivity.
Qed.

Lemma crn_map_fold_present (l l' : list Offering) :
  NoDup (map crn l) -> (forall o, In o l' -> In o l) ->
  fold_left (fun crn_map offering => crn_map_step offering crn_map) l'
            (map (fun o => (crn o, o)) l)
  = map (fun o => (crn o, o)) l.
Proof.
  intros Hnd. induction l' as [|o l' IH]; intros Hincl; simpl; [reflexivity|].
  rewrite crn_map_step_present;
    [| exact Hnd | apply Hincl; left; reflexivity].
  apply IH. intros o' Ho'. apply Hincl. right. exact Ho'.
Qed.

Lemma merge_self_distinct (l : list Offering) :
  NoDup (map crn l) -> merge_offerings_by_crn (l ++ l) = l.
Proof.
  intros Hnd. unfold merge_offerings_by_crn. rewrite fold_left_app.
  rewrite (crn_map_fold_fresh l []) by (auto; intros o _ []). simpl.
  rewrite crn_map_fold_present by auto.
  rewrite map_map. simpl. apply map_id.
Qed.

(** C9: catalog merging is idempotent.  For a catalog that is the result
    of CRN-merging and deduplication, merging and deduplicating it
    concatenated with itself gives the catalog back. *)
Theorem merge_catalog_with_itself (offerings : list Offering) :
  let C := deduplicate_offerings (merge_offerings_by_crn offerings) in
  deduplicate_offerings (merge_offerings_by_crn (C ++ C)) = C.
Proof.
  intros C.
  assert (NoDup (map crn C)) as Hnd.
  { unfold C. rewrite deduplicate_distinct by apply merge_offerings_by_crn_distinct.
    apply merge_offerings_by_crn_distinct. }
  rewrite merge_self_distinct by exact Hnd.
  apply deduplicate_distinct, Hnd.
Qed.

(** C8: two rows that share a CRN, the first meeting on [T] and the second
    on [R], both from 9:00 AM to 9:50 AM, normalize to exactly one
    offering; its meetings are Tuesday and Thursday, 540 to 590, and its
    other attributes are those of the first row's offering. *)
Theorem crn_merge_tuesday_thursday (r1 r2 : Row) (o1 o2 : Offering) :
  row_Days r1 = "T" -> row_Times r1 = "9:00 AM - 9:50 AM" ->
  row_Days r2 = "R" -> row_Times r2 = "9:00 AM - 9:50 AM" ->
  normalize_csv_row r1 = Some o1 -> normalize_csv_row r2 = Some o2 ->
  crn o1 = crn o2 ->
  exists o,
    normalize_catalog [r1; r2] = [o] /\
    map triple (meetings o) = [(TUESDAY, 540, 590); (THURSDAY, 540, 590)] /\
    set_meetings o (meetings o1) = o1.
Proof.
  intros Hd1 Ht1 Hd2 Ht2 Hr1 Hr2 Hcrn.
  pose proof (normalize_csv_row_meetings _ _ Hr1) as Hm1.
  pose proof (normalize_csv_row_meetings _ _ Hr2) as Hm2.
  rewrite Hd1, Ht1 in Hm1. rewrite Hd2, Ht2 in Hm2.
  change (parse_days (Py.strip "T")) with [TUESDAY] in Hm1.
  change (parse_days (Py.strip "R")) with [THURSDAY] in Hm2.
  change (parse_times (Py.strip "9:00 AM - 9:50 AM")) with (Some 540, Some 590) in Hm1, Hm2.
  unfold build_meetings in Hm1, Hm2. simpl map in Hm1, Hm2.
  set (l1 := Py.or_none (Py.strip (row_Location r1))) in Hm1.
  set (l2 := Py.or_none (Py.strip (row_Location r2))) in Hm2.
  exists (set_meetings o1 [mkMeeting TUESDAY 540 590 l1; mkMeeting THURSDAY 540 590 l2]).
  split; [|split; [reflexivity | apply set_meetings_back]].
  unfold normalize_catalog, normalize_rows. simpl omap. rewrite Hr1, Hr2. simpl.
  unfold merge_offerings_by_crn. simpl.
  rewrite decide_True by exact Hcrn. simpl.
  unfold merge_meetings. rewrite Hm2. simpl. rewrite Hm1. simpl.
  unfold deduplicate_offerings. simpl.
  rewrite decide_False by apply not_elem_of_empty. reflexivity.
Qed.

Lemma crn_merge_tuesday_thursday_witness :
  exists o,
    normalize_catalog [row_tuesday; row_thursday] = [o] /\
    map triple (meetings o) = [(TUESDAY, 540, 590); (THURSDAY, 540, 590)] /\
    set_meetings o [mkMeeting TUESDAY 540 590 (Some "CKB 101")]
    = mkOffering "11757" "CS 100" "002" "ROADMAP TO COMPUTING" (Some "202610")
        [mkMeeting TUESDAY 540 590 (Some "CKB 101")] OPEN (Some 80) (Some 0)
        (Some "Smith") IN_PERSON (Some 3%Q) None None.
Proof.
  assert (normalize_csv_row row_tuesday
          = Some (mkOffering "11757" "CS 100" "002" "ROADMAP TO COMPUTING" (Some "202610")
                    [mkMeeting TUESDAY 540 590 (Some "CKB 101")] OPEN (Some 80) (Some 0)
                    (Some "Smith") IN_PERSON (Some 3%Q) None None))
    as H1 by (vm_compute; reflexivity).
  assert (normalize_csv_row row_thursday
          = Some (mkOffering "11757" "CS 100" "002" "ROADMAP TO COMPUTING" (Some "202610")
                    [mkMeeting THURSDAY 540 590 (Some "CKB 101")] OPEN (Some 80) (Some 0)
                    (Some "Smith") IN_PERSON (Some 3%Q) None None))
    as H2 by (vm_compute; reflexivity).
  exact (crn_merge_tuesday_thursday row_tuesday row_thursday _ _
           eq_refl eq_refl eq_refl eq_refl H1 H2 eq_refl).
Defined.

(** ** The tie-break and the hash *)

Section HashIndependence.
Variables h1 h2 : string -> Z.

Lemma crn_sum_numeric (schedule : list Offering) (acc : Z) :
  Forall numeric_crn schedule ->
  fold_left (fun acc o => acc + crn_val h1 o) schedule acc
  = fold_left (fun acc o => acc + crn_val h2 o) schedule acc.
Proof.
  intros H. revert acc. induction H as [|o schedule Ho _ IH]; intros acc; simpl; [reflexivity|].
  rewrite IH. unfold crn_val. rewrite Ho. reflexivity.
Qed.

Lemma compute_score_numeric (self : ScheduleSolver) (schedule : list Offering) :
  Forall numeric_crn schedule ->
  _compute_score h1 self schedule = _compute_score h2 self schedule.
Proof. intros H. unfold _compute_score. rewrite (crn_sum_numeric _ _ H). reflexivity. Qed.

Lemma leaf_numeric (cur : list Offering) (self : ScheduleSolver) :
  Forall numeric_crn cur -> leaf h1 cur self = leaf h2 cur self.
Proof. intros H. unfold leaf. rewrite (compute_score_numeric _ _ H). reflexivity. Qed.

Lemma backtrack_from_offerings_by_course (h : string -> Z) (remaining : list string) :
  forall cur self,
    offerings_by_course (_backtrack_from h remaining cur self) = offerings_by_course self.
Proof.
  induction remaining as [|ck remaining IH]; intros cur self; simpl.
  - apply leaf_offerings_by_course.
  - generalize (dd_get ck (offerings_by_course self)). intros cands.
    revert self. induction cands as [|o cands IHc]; intros self; simpl; [reflexivity|].
    destruct (_has_conflict o cur); [apply IHc|].
    destruct (_conflicts_with_availability self o); [apply IHc|].
    rewrite IHc. apply IH.
Qed.

Lemma backtrack_from_numeric (remaining : list string) :
  forall cur self,
    Forall numeric_crn cur ->
    (forall ck, Forall numeric_crn (dd_get ck (offerings_by_course self))) ->
    _backtrack_from h1 remaining cur self = _backtrack_from h2 remaining cur self.
Proof.
  induction remaining as [|ck remaining IH]; intros cur self Hcur Hcat; simpl.
  - apply leaf_numeric, Hcur.
  - pose proof (Hcat ck) as Hcands. revert Hcands.
    generalize (dd_get ck (offerings_by_course self)). intros cands Hcands.
    revert self Hcat. induction Hcands as [|o cands Ho _ IHc]; intros self Hcat; simpl;
      [reflexivity|].
    destruct (_has_conflict o cur); [apply IHc, Hcat|].
    destruct (_conflicts_with_availability self o); [apply IHc, Hcat|].
    rewrite <- (IH (cur ++ [o])%list self); [| apply Forall_app; auto | exact Hcat].
    apply IHc. intros ck'. rewrite backtrack_from_offerings_by_course. apply Hcat.
Qed.

(** When every CRN of the catalog is numeric the hash is never consulted
    in a way that matters: two interpreter processes return the same
    list. *)
Lemma solve_schedules_numeric_crns (catalog : list Offering) (req : SolveRequest) :
  Forall numeric_crn catalog ->
  solve_schedules h1 catalog req = solve_schedules h2 catalog req.
Proof.
  intros Hnum. unfold solve_schedules, solve, _backtrack.
  destruct (existsb _ _); [reflexivity|]. simpl. rewrite !drop_0.
  rewrite backtrack_from_numeric; [reflexivity | constructor |].
  intros ck. change (Forall numeric_crn (candidates catalog req ck)).
  rewrite List.Forall_forall in Hnum |- *. intros o Ho.
  apply candidates_In in Ho as (Ho & _). auto.
Qed.

End HashIndependence.

(** * Further properties of the solver *)

(** ** The stable sort is a sorting permutation *)

Lemma insert_sorted_perm {A : Type} (leb : A -> A -> bool) (x : A) (l : list A) :
  insert_sorted leb x l ≡ₚ x :: l.
Proof.
  induction l as [|y l IH]; simpl; [reflexivity|].
  destruct (leb x y); [reflexivity|].
  rewrite IH. apply Permutation_swap.
Qed.

Lemma sorted_perm {A : Type} (leb : A -> A -> bool) (l : list A) : sorted leb l ≡ₚ l.
Proof.
  induction l as [|x l IH]; simpl; [reflexivity|].
  rewrite insert_sorted_perm, IH. reflexivity.
Qed.

Section Ordered.
Context {A : Type} (leb : A -> A -> bool).
Hypothesis leb_total : forall x y, leb x y = true \/ leb y x = true.
Hypothesis leb_trans : forall x y z, leb x y = true -> leb y z = true -> leb x z = true.

Lemma insert_sorted_ordered (x : A) (l : list A) :
  StronglySorted (fun a b => leb a b = true) l ->
  StronglySorted (fun a b => leb a b = true) (insert_sorted leb x l).
Proof.
  induction 1 as [|y l Hs IH Hy]; simpl.
  - constructor; constructor.
  - destruct (leb x y) eqn:Hxy.
    + constructor; [constructor; assumption|].
      constructor; [exact Hxy|].
      rewrite List.Forall_forall in Hy |- *. intros z Hz. eauto.
    + constructor; [exact IH|].
      rewrite List.Forall_forall in Hy |- *. intros z Hz.
      apply insert_sorted_In in Hz as [-> | Hz]; [|auto].
      destruct (leb_total x y) as [H|H]; [congruence | exact H].
Qed.

Lemma sorted_ordered (l : list A) :
  StronglySorted (fun a b => leb a b = true) (sorted leb l).
Proof.
  induction l as [|x l IH]; simpl; [constructor|].
  apply insert_sorted_ordered, IH.
Qed.
End Ordered.

Lemma StronglySorted_take {A : Type} (R : A -> A -> Prop) (n : nat) (l : list A) :
  StronglySorted R l -> StronglySorted R (take n l).
Proof.
  intros H. revert n. induction H as [|x l Hs IH Hx]; intros [|n]; simpl; try constructor.
  - apply IH.
  - rewrite List.Forall_forall in Hx |- *. intros y Hy. apply Hx. eapply take_In, Hy.
Qed.

Lemma StronglySorted_lookup {A : Type} (R : A -> A -> Prop) (l : list A) :
  StronglySorted R l ->
  forall (i j : nat) (x y : A), (i < j)%nat -> l !! i = Some x -> l !! j = Some y -> R x y.
Proof.
  induction 1 as [|z l Hs IH Hz]; intros i j x y Hij Hi Hj.
  - rewrite lookup_nil in Hi. discriminate.
  - destruct j as [|j]; [lia|]. simpl in Hj. destruct i as [|i].
    + simpl in Hi. injection Hi as <-.
      rewrite List.Forall_forall in Hz. apply Hz, list_elem_of_In.
      eapply list_elem_of_lookup_2, Hj.
    + simpl in Hi. apply (IH i j); [lia | assumption..].
Qed.

(** ** A stronger induction principle for the search *)

Lemma conflicts_with_availability_setup (self0 self : ScheduleSolver) (o : Offering) :
  same_setup self0 self ->
  _conflicts_with_availability self o = _conflicts_with_availability self0 o.
Proof. intros (_ & _ & H). unfold _conflicts_with_availability. rewrite H. reflexivity. Qed.

Section SearchInduction.
Variable str_hash : string -> Z.

Lemma leaf_same_setup (self0 : ScheduleSolver) cur self :
  same_setup self0 self -> same_setup self0 (leaf str_hash cur self).
Proof. unfold same_setup, leaf. repeat case_match; simpl; auto. Qed.

(** [P] describes the assignment together with the courses that remain;
    [I] describes the solver.  Every candidate that passes both checks
    must extend [P], and every leaf must keep [I]. *)
Lemma backtrack_from_ind (self0 : ScheduleSolver)
    (P : list string -> list Offering -> Prop) (I : ScheduleSolver -> Prop) :
  (forall ck rem cur o,
      P (ck :: rem) cur -> In o (dd_get ck (offerings_by_course self0)) ->
      _has_conflict o cur = false -> _conflicts_with_availability self0 o = false ->
      P rem (cur ++ [o])%list) ->
  (forall cur self, P [] cur -> same_setup self0 self -> I self -> I (leaf str_hash cur self)) ->
  forall remaining cur self,
    P remaining cur -> same_setup self0 self -> I self ->
    same_setup self0 (_backtrack_from str_hash remaining cur self) /\
    I (_backtrack_from str_hash remaining cur self).
Proof.
  intros Hstep Hleaf.
  induction remaining as [|ck remaining IH]; intros cur self HP Hsetup HI.
  - simpl. split; [apply leaf_same_setup, Hsetup | auto].
  - simpl.
    assert (forall o, In o (dd_get ck (offerings_by_course self)) ->
                      In o (dd_get ck (offerings_by_course self0))) as Hsub.
    { destruct Hsetup as (_ & -> & _). auto. }
    revert Hsub. generalize (dd_get ck (offerings_by_course self)). intros cands Hsub.
    revert self Hsetup HI. induction cands as [|o cands IHc]; intros self Hsetup HI.
    + simpl. auto.
    + simpl. assert (forall o', In o' cands -> In o' (dd_get ck (offerings_by_course self0)))
        as Hsub' by (intros o' Ho'; apply Hsub; right; exact Ho').
      destruct (_has_conflict o cur) eqn:Hc; [apply IHc; assumption|].
      destruct (_conflicts_with_availability self o) eqn:Ha; [apply IHc; assumption|].
      rewrite (conflicts_with_availability_setup _ _ _ Hsetup) in Ha.
      destruct (IH (cur ++ [o])%list self) as [Hsetup' HI']; try assumption.
      { apply (Hstep ck remaining cur o); try assumption. apply Hsub. left. reflexivity. }
      apply IHc; assumption.
Qed.

Lemma same_setup_refl (self : ScheduleSolver) : same_setup self self.
Proof. repeat split. Qed.

(** What [solve_schedules] returns comes from the search over the
    required courses in their visiting order, and then no required
    course is without candidates. *)
Lemma solve_schedules_from_search (catalog : list Offering) (req : SolveRequest) (S : Schedule) :
  In S (solve_schedules str_hash catalog req) ->
  In S (results (_backtrack_from str_hash (required_courses catalog req) []
                   (init catalog req))).
Proof.
  unfold solve_schedules, solve. destruct (existsb _ _); simpl; [tauto|].
  intros H. apply take_In, sorted_In in H. unfold _backtrack in H. rewrite drop_0 in H.
  exact H.
Qed.

(** The schedules of the buffer are complete assignments that the
    search reached through checked extensions. *)
Lemma search_results_reached (catalog : list Offering) (req : SolveRequest)
    (P : list string -> list Offering -> Prop) :
  (forall ck rem cur o,
      P (ck :: rem) cur -> In o (candidates catalog req ck) ->
      _has_conflict o cur = false ->
      _conflicts_with_availability (init catalog req) o = false ->
      P rem (cur ++ [o])%list) ->
  P (required_courses catalog req) [] ->
  Forall (fun S => P [] (offerings S) /\ total_credits S = sum_credits (offerings S))
         (results (_backtrack_from str_hash (required_courses catalog req) []
                     (init catalog req))).
Proof.
  intros Hstep H0.
  apply (backtrack_from_ind (init catalog req) P
           (fun self => Forall (fun S => P [] (offerings S)
                                         /\ total_credits S = sum_credits (offerings S))
                               (results self))).
  - exact Hstep.
  - intros cur self HP _ HR.
    destruct (leaf_results str_hash cur self) as [-> | (-> & _ & _)]; [exact HR|].
    apply Forall_app. split; [exact HR|]. constructor; [|constructor]. simpl. auto.
  - exact H0.
  - apply same_setup_refl.
  - constructor.
Qed.

End SearchInduction.

(** ** Availability *)

Lemma dd_get_group_val {K V W : Type} `{EqDecision K} (key : V -> K) (val : V -> W)
    (k : K) (l : list V) (d : list (K * list W)) :
  dd_get k (fold_left (fun d v => dd_append (key v) (val v) d) l d)
  = (dd_get k d ++ map val (filter (fun v => key v = k) l))%list.
Proof.
  revert d. induction l as [|v l IH]; intros d; simpl.
  - rewrite app_nil_r. reflexivity.
  - rewrite IH, dd_get_append. rewrite filter_cons.
    destruct (decide (key v = k)); [simpl; rewrite <- app_assoc|]; reflexivity.
Qed.

(** The blocks stored under a day are the blocks of the request on that
    day, in order. *)
Lemma unavailable_by_day_spec (catalog : list Offering) (req : SolveRequest) (d : DayOfWeek) :
  dd_get d (unavailable_by_day (init catalog req))
  = map (fun b => (block_start_min b, block_end_min b))
        (filter (fun b => block_day b = d) (unavailable req)).
Proof.
  unfold init. simpl.
  apply (dd_get_group_val block_day (fun b => (block_start_min b, block_end_min b))
           d (unavailable req) []).
Qed.

Lemma conflicts_with_availability_false (catalog : list Offering) (req : SolveRequest)
    (o : Offering) :
  _conflicts_with_availability (init catalog req) o = false ->
  forall m b, In m (meetings o) -> In b (unavailable req) ->
    day m <> block_day b \/ end_min m <= block_start_min b \/ start_min m >= block_end_min b.
Proof.
  intros H m b Hm Hb.
  destruct (decide (day m = block_day b)) as [E|E]; [right | left; exact E].
  unfold _conflicts_with_availability in H.
  destruct (fst (conflicts_with_unavailable m (block_start_min b) (block_end_min b))) eqn:Hc.
  - exfalso.
    assert (existsb (fun meeting =>
              existsb (fun '(unavail_start, unavail_end) =>
                         fst (conflicts_with_unavailable meeting unavail_start unavail_end))
                      (dd_get (day meeting) (unavailable_by_day (init catalog req))))
              (meetings o) = true) as X; [|congruence].
    apply existsb_exists. exists m. split; [exact Hm|].
    apply existsb_exists. exists (block_start_min b, block_end_min b). split; [|exact Hc].
    rewrite unavailable_by_day_spec.
    apply (in_map (fun b => (block_start_min b, block_end_min b))).
    apply list_elem_of_In, list_elem_of_filter. split; [congruence|].
    apply list_elem_of_In, Hb.
  - unfold conflicts_with_unavailable in Hc.
    destruct ((end_min m <=? block_start_min b) || (start_min m >=? block_end_min b)) eqn:Hd;
      [|discriminate].
    apply orb_true_iff in Hd as [Hd|Hd]; [left | right]; lia.
Qed.

(** X1: no meeting of a returned schedule intersects an unavailable block
    of the request: they are on different days, or the meeting ends at or
    before the start of the block, or starts at or after its end. *)
Theorem solve_schedules_availability (str_hash : string -> Z)
    (catalog : list Offering) (req : SolveRequest) (S : Schedule)
    (o : Offering) (m : Meeting) (b : AvailabilityBlock) :
  In S (solve_schedules str_hash catalog req) ->
  In o (offerings S) -> In m (meetings o) -> In b (unavailable req) ->
  day m <> block_day b \/ end_min m <= block_start_min b \/ start_min m >= block_end_min b.
Proof.
  intros HS Ho Hm Hb. apply solve_schedules_from_search in HS.
  pose proof (search_results_reached str_hash catalog req
    (fun _ cur => Forall (fun o => _conflicts_with_availability (init catalog req) o = false) cur))
    as Hall.
  rewrite List.Forall_forall in Hall.
  destruct (Hall) with (x := S) as [Hfree _]; try assumption.
  - intros ck rem cur o' Hcur _ _ Ha. apply Forall_app. split; [exact Hcur|].
    constructor; [exact Ha | constructor].
  - constructor.
  - rewrite List.Forall_forall in Hfree.
    apply (conflicts_with_availability_false catalog req o (Hfree o Ho)); assumption.
Qed.

(** ** Coverage and provenance *)

Lemma search_results_cover (str_hash : string -> Z) (catalog : list Offering)
    (req : SolveRequest) (S : Schedule) :
  In S (solve_schedules str_hash catalog req) ->
  map course_key (offerings S) = required_courses catalog req /\
  Forall (fun o => In o (candidates catalog req (course_key o))) (offerings S).
Proof.
  intros HS. apply solve_schedules_from_search in HS.
  pose proof (search_results_reached str_hash catalog req
    (fun rem cur => (map course_key cur ++ rem)%list = required_courses catalog req /\
                    Forall (fun o => In o (candidates catalog req (course_key o))) cur))
    as Hall.
  rewrite List.Forall_forall in Hall.
  destruct Hall with (x := S) as [[Hkeys Hcand] _]; try assumption.
  - intros ck rem cur o [Hk Hc] Ho _ _.
    assert (course_key o = ck) as Hck by (apply candidates_In in Ho; tauto).
    split.
    + rewrite map_app. simpl. rewrite <- app_assoc. simpl. rewrite Hck. exact Hk.
    + apply Forall_app. split; [exact Hc|]. constructor; [|constructor].
      rewrite Hck. exact Ho.
  - split; [reflexivity | constructor].
  - rewrite app_nil_r in Hkeys. auto.
Qed.

(** X2: a returned schedule has exactly one offering per required course:
    the course keys of its offerings are the required course keys, up to
    order, and every offering is an offering of the catalog. *)
Theorem solve_schedules_coverage (str_hash : string -> Z)
    (catalog : list Offering) (req : SolveRequest) (S : Schedule) :
  In S (solve_schedules str_hash catalog req) ->
  map course_key (offerings S) ≡ₚ required_course_keys req /\
  Forall (fun o => In o catalog) (offerings S).
Proof.
  intros HS. apply search_results_cover in HS as [Hkeys Hcand]. split.
  - rewrite Hkeys. apply sorted_perm.
  - rewrite List.Forall_forall in Hcand |- *. intros o Ho.
    apply Hcand, candidates_In in Ho. tauto.
Qed.

(** What passing the filter engine gives for the three filters that do not
    look at text. *)
Lemma passes_filters_facts (f : ScheduleFilters) (o : Offering) :
  passes_filters f o = true ->
  status o ∈ filter_status f /\
  (is_honors o = true -> include_honors f = true) /\
  (is_honors o = false -> include_non_honors f = true) /\
  (forall m, In m (meetings o) ->
     (forall e, earliest_start f = Some e -> e <= start_min m) /\
     (forall l, latest_end f = Some l -> end_min m <= l)).
Proof.
  unfold passes_filters. intros Hpass.
  repeat match type of Hpass with
         | (if ?c then false else _) = true => destruct c eqn:?; [discriminate|]
         end.
  repeat match goal with
         | H : negb _ = false |- _ => apply negb_false_iff in H
         end.
  split; [eapply bool_decide_eq_true_1; eassumption|].
  split; [intros Hh; destruct (include_honors f); [reflexivity|];
          rewrite Hh in *; simpl in *; discriminate|].
  split; [intros Hh; destruct (include_non_honors f); [reflexivity|];
          rewrite Hh in *; simpl in *; discriminate|].
  intros m Hm.
  assert (valid_time f o = true \/
          (earliest_start f = None /\ latest_end f = None)) as [Hv|[He Hl]].
  { destruct (valid_time f o); [left; reflexivity | right].
    destruct (earliest_start f), (latest_end f); simpl in *; try discriminate. auto. }
  - unfold valid_time in Hv. rewrite forallb_forall in Hv. specialize (Hv m Hm).
    apply andb_true_iff in Hv as [H1 H2]. apply negb_true_iff in H1, H2. split.
    + intros e He. rewrite He in H1. lia.
    + intros l Hl. rewrite Hl in H2. lia.
  - split; intros x Hx; congruence.
Qed.

(** X3: Every offering of a returned schedule went through the filter engine:
    its status is one of the requested ones, it is honors only if honors
    sections are included and regular only if those are, and each of its
    meetings lies within the bounds [earliest_start] and [latest_end] that
    the request sets. *)
Theorem solve_schedules_filtered (str_hash : string -> Z)
    (catalog : list Offering) (req : SolveRequest) (S : Schedule) (o : Offering) :
  In S (solve_schedules str_hash catalog req) -> In o (offerings S) ->
  status o ∈ filter_status (filters req) /\
  (is_honors o = true -> include_honors (filters req) = true) /\
  (is_honors o = false -> include_non_honors (filters req) = true) /\
  (forall m, In m (meetings o) ->
     (forall e, earliest_start (filters req) = Some e -> e <= start_min m) /\
     (forall l, latest_end (filters req) = Some l -> end_min m <= l)).
Proof.
  intros HS Ho. apply search_results_cover in HS as [_ Hcand].
  rewrite List.Forall_forall in Hcand. apply Hcand, candidates_In in Ho.
  apply passes_filters_facts. tauto.
Qed.

(** ** Uniqueness *)

Lemma signatures_ok_leaf (str_hash : string -> Z) (cur : list Offering) (self : ScheduleSolver) :
  signatures_ok self -> signatures_ok (leaf str_hash cur self).
Proof.
  intros [Hseen Hnd]. unfold leaf.
  destruct (Q_truthy (min_credits (request self)) && _); [split; assumption|].
  destruct (Q_truthy (max_credits (request self)) && _); [split; assumption|].
  destruct (decide _) as [Hin|Hnot]; [split; assumption|].
  assert (signatures_ok
            (mkSolver (catalog self) (request self)
               (results self ++ [mkSchedule cur (sum_credits cur)
                                   (_compute_score str_hash self cur)])%list
               ({[ list_to_set (map crn cur) ]} ∪ seen_signatures self)
               (offerings_by_course self) (unavailable_by_day self))) as Hok.
  { unfold signatures_ok. simpl. rewrite map_app. simpl. split.
    - rewrite list_to_set_app_L. simpl. rewrite Hseen. unfold schedule_sig at 2. simpl.
      rewrite (right_id_L ∅ (∪)). apply (comm_L (∪)).
    - apply NoDup_app. split; [exact Hnd|]. split; [|apply NoDup_singleton].
      intros x Hx Hx'. apply list_elem_of_singleton in Hx'. subst x.
      apply Hnot. rewrite Hseen. apply elem_of_list_to_set. exact Hx. }
  match goal with |- context [if ?c then _ else _] => destruct c end; exact Hok.
Qed.

Lemma search_signatures_ok (str_hash : string -> Z) (catalog : list Offering)
    (req : SolveRequest) (remaining : list string) :
  signatures_ok (_backtrack_from str_hash remaining [] (init catalog req)).
Proof.
  apply (backtrack_from_ind str_hash (init catalog req) (fun _ _ => True) signatures_ok);
    auto using same_setup_refl.
  - intros cur self _ _. apply signatures_ok_leaf.
  - split; [reflexivity | constructor].
Qed.

Lemma NoDup_map_take {A B : Type} (f : A -> B) (n : nat) (l : list A) :
  NoDup (map f l) -> NoDup (map f (take n l)).
Proof.
  revert n. induction l as [|x l IH]; intros [|n]; simpl; intros H; try constructor.
  - apply NoDup_cons in H as [Hx H]. intros Hin. apply Hx.
    apply list_elem_of_In in Hin. apply list_elem_of_In.
    apply in_map_iff in Hin as (y & <- & Hy). apply in_map, (take_In n), Hy.
  - apply NoDup_cons in H as [_ H]. apply IH, H.
Qed.

(** X4: no two returned schedules have the same set of CRNs. *)
Theorem solve_schedules_unique (str_hash : string -> Z)
    (catalog : list Offering) (req : SolveRequest) (i j : nat) (Si Sj : Schedule) :
  solve_schedules str_hash catalog req !! i = Some Si ->
  solve_schedules str_hash catalog req !! j = Some Sj ->
  i <> j -> schedule_sig Si <> schedule_sig Sj.
Proof.
  intros Hi Hj Hij Heq.
  assert (NoDup (map schedule_sig (solve_schedules str_hash catalog req))) as Hnd.
  { unfold solve_schedules, solve. destruct (existsb _ _); simpl; [constructor|].
    apply NoDup_map_take.
    rewrite (Permutation_map schedule_sig (sorted_perm _ _)).
    unfold _backtrack. rewrite drop_0. apply search_signatures_ok. }
  apply Hij. eapply NoDup_lookup; [exact Hnd | |].
  - rewrite list_lookup_fmap, Hi. reflexivity.
  - rewrite list_lookup_fmap, Hj. simpl. congruence.
Qed.

(** ** Ranking *)

Lemma score_leb_total (a b : Schedule) : score_leb a b = true \/ score_leb b a = true.
Proof.
  unfold score_leb. rewrite !Qle_bool_iff.
  destruct (Qlt_le_dec (score b) (score a)) as [H|H]; [right; apply Qlt_le_weak, H | left; exact H].
Qed.

Lemma score_leb_trans (a b c : Schedule) :
  score_leb a b = true -> score_leb b c = true -> score_leb a c = true.
Proof. unfold score_leb. rewrite !Qle_bool_iff. apply Qle_trans. Qed.

(** X5: the returned list is in non-decreasing order of score. *)
Theorem solve_schedules_sorted (str_hash : string -> Z)
    (catalog : list Offering) (req : SolveRequest) (i j : nat) (Si Sj : Schedule) :
  solve_schedules str_hash catalog req !! i = Some Si ->
  solve_schedules str_hash catalog req !! j = Some Sj ->
  (i < j)%nat -> (score Si <= score Sj)%Q.
Proof.
  intros Hi Hj Hij. apply Qle_bool_iff. change (score_leb Si Sj = true).
  revert Hi Hj. unfold solve_schedules, solve. destruct (existsb _ _); simpl.
  - intros Hi. rewrite lookup_nil in Hi. discriminate.
  - intros Hi Hj.
    eapply (StronglySorted_lookup (fun a b => score_leb a b = true)); [| exact Hij | exact Hi | exact Hj].
    apply StronglySorted_take, sorted_ordered; [apply score_leb_total | apply score_leb_trans].
Qed.

(** ** A course without candidates *)

(** X7: When some required course has no offering left after the filters, the
    solver returns the empty list. *)
Theorem solve_schedules_no_candidates (str_hash : string -> Z)
    (catalog : list Offering) (req : SolveRequest) (ck : string) :
  In ck (required_course_keys req) -> candidates catalog req ck = [] ->
  solve_schedules str_hash catalog req = [].
Proof.
  intros Hck Hnone. unfold solve_schedules, solve.
  match goal with |- context [if ?c then _ else _] => destruct c eqn:Hex end;
    [reflexivity|].
  exfalso. apply not_true_iff_false in Hex. apply Hex.
  apply existsb_exists. exists ck. split.
  - apply sorted_In, Hck.
  - change (dd_get ck (offerings_by_course (init catalog req))) with (candidates catalog req ck).
    rewrite Hnone. reflexivity.
Qed.

(** ** The solver properties on the sample catalog *)

Lemma solve_schedules_availability_witness :
  In blocked_returned (solve_schedules no_hash sample_offerings request_monday_blocked) /\
  map crn (offerings blocked_returned) = ["11002"; "12001"] /\
  (day (mkMeeting MONDAY 540 590 None) <> block_day (mkBlock MONDAY 600 660) \/
   end_min (mkMeeting MONDAY 540 590 None) <= block_start_min (mkBlock MONDAY 600 660) \/
   start_min (mkMeeting MONDAY 540 590 None) >= block_end_min (mkBlock MONDAY 600 660)).
Proof.
  assert (In blocked_returned (solve_schedules no_hash sample_offerings request_monday_blocked))
    as HS by (vm_compute; left; reflexivity).
  split; [exact HS|]. split; [reflexivity|].
  apply (solve_schedules_availability no_hash sample_offerings request_monday_blocked
           blocked_returned
           (mkOffering "12001" "MATH 111" "001" "Calculus I" None
              [mkMeeting MONDAY 540 590 None; mkMeeting WEDNESDAY 540 590 None;
               mkMeeting FRIDAY 540 590 None]
              OPEN (Some 35) (Some 20) None IN_PERSON (Some 4%Q) None None)
           (mkMeeting MONDAY 540 590 None) (mkBlock MONDAY 600 660) HS).
  - simpl. right. left. reflexivity.
  - simpl. left. reflexivity.
  - simpl. left. reflexivity.
Defined.

Lemma solve_schedules_coverage_witness :
  In third_returned (solve_schedules no_hash sample_offerings request_two_courses) /\
  map course_key (offerings third_returned) ≡ₚ required_course_keys request_two_courses /\
  Forall (fun o => In o sample_offerings) (offerings third_returned).
Proof.
  assert (In third_returned (solve_schedules no_hash sample_offerings request_two_courses))
    as HS by (vm_compute; right; right; left; reflexivity).
  split; [exact HS|].
  exact (solve_schedules_coverage no_hash sample_offerings request_two_courses third_returned HS).
Defined.

Lemma solve_schedules_filtered_witness :
  In window_returned (solve_schedules no_hash sample_offerings request_time_window) /\
  map crn (offerings window_returned) = ["11002"] /\
  600 <= start_min (mkMeeting TUESDAY 840 920 (Some "CKB 102")) /\
  end_min (mkMeeting TUESDAY 840 920 (Some "CKB 102")) <= 960.
Proof.
  assert (In window_returned (solve_schedules no_hash sample_offerings request_time_window))
    as HS by (vm_compute; left; reflexivity).
  split; [exact HS|]. split; [reflexivity|].
  destruct (solve_schedules_filtered no_hash sample_offerings request_time_window
              window_returned
              (mkOffering "11002" "CS 100" "002" "Intro to CS" None
                 [mkMeeting TUESDAY 840 920 (Some "CKB 102");
                  mkMeeting THURSDAY 840 920 (Some "CKB 102")]
                 OPEN (Some 40) (Some 25) None IN_PERSON (Some 3%Q) None None) HS)
    as (_ & _ & _ & Hwin).
  - simpl. left. reflexivity.
  - destruct (Hwin (mkMeeting TUESDAY 840 920 (Some "CKB 102"))) as [He Hl].
    + simpl. left. reflexivity.
    + split; [apply He | apply Hl]; reflexivity.
Defined.

Lemma solve_schedules_unique_witness :
  solve_schedules no_hash sample_offerings request_two_courses !! 0%nat = Some first_returned /\
  solve_schedules no_hash sample_offerings request_two_courses !! 2%nat = Some third_returned /\
  schedule_sig first_returned <> schedule_sig third_returned.
Proof.
  assert (solve_schedules no_hash sample_offerings request_two_courses !! 0%nat
          = Some first_returned) as H0 by (vm_compute; reflexivity).
  assert (solve_schedules no_hash sample_offerings request_two_courses !! 2%nat
          = Some third_returned) as H2 by (vm_compute; reflexivity).
  split; [exact H0|]. split; [exact H2|].
  apply (solve_schedules_unique no_hash sample_offerings request_two_courses 0 2 _ _ H0 H2).
  lia.
Defined.

Lemma solve_schedules_sorted_witness :
  solve_schedules no_hash sample_offerings request_two_courses !! 0%nat = Some first_returned /\
  solve_schedules no_hash sample_offerings request_two_courses !! 2%nat = Some third_returned /\
  (score first_returned <= score third_returned)%Q.
Proof.
  assert (solve_schedules no_hash sample_offerings request_two_courses !! 0%nat
          = Some first_returned) as H0 by (vm_compute; reflexivity).
  assert (solve_schedules no_hash sample_offerings request_two_courses !! 2%nat
          = Some third_returned) as H2 by (vm_compute; reflexivity).
  split; [exact H0|]. split; [exact H2|].
  apply (solve_schedules_sorted no_hash sample_offerings request_two_courses 0 2 _ _ H0 H2).
  lia.
Defined.

Lemma solve_schedules_no_candidates_witness :
  In "PHYS 111" (required_course_keys request_physics) /\
  candidates sample_offerings request_physics "PHYS 111" = [] /\
  solve_schedules no_hash sample_offerings request_physics = [].
Proof.
  assert (In "PHYS 111" (required_course_keys request_physics)) as H1
    by (simpl; right; left; reflexivity).
  assert (candidates sample_offerings request_physics "PHYS 111" = []) as H2
    by (vm_compute; reflexivity).
  split; [exact H1|]. split; [exact H2|].
  exact (solve_schedules_no_candidates no_hash sample_offerings request_physics
           "PHYS 111" H1 H2).
Defined.



(** X9: When every CRN of the catalog is numeric, the result does not depend
    on the string hash of the interpreter: two processes return the same
    list for the same catalog and request. *)
Theorem solve_schedules_hash_independent (h1 h2 : string -> Z)
    (catalog : list Offering) (req : SolveRequest) :
  Forall numeric_crn catalog ->
  solve_schedules h1 catalog req = solve_schedules h2 catalog req.
Proof. exact (solve_schedules_numeric_crns h1 h2 catalog req). Qed.

Lemma solve_schedules_hash_independent_witness :
  Forall numeric_crn sample_offerings /\
  solve_schedules hash_run1 sample_offerings request_two_courses
  = solve_schedules hash_run2 sample_offerings request_two_courses.
Proof.
  assert (Forall numeric_crn sample_offerings) as H
    by (repeat constructor).
  split; [exact H|].
  exact (solve_schedules_hash_independent hash_run1 hash_run2 sample_offerings
           request_two_courses H).
Defined.

Lemma day_gaps_spec_witness :
  Some 30 <> Some 0 /\
  day_gaps (Some 30) [(540, 590); (650, 700); (710, 760)] = 610.
Proof.
  assert (Some 30 <> Some 0) as H by discriminate.
  split; [exact H|].
  rewrite (day_gaps_spec (Some 30) [(540, 590); (650, 700); (710, 760)] H). reflexivity.
Defined.

(** * Further properties of the data model *)

(** X10: [Meeting.conflicts_with_unavailable] on a meeting and a block that both
    have a positive length: either they are disjoint and the overlap is
    reported as zero, or they conflict and the overlap is positive and no
    longer than the meeting or the block. *)
Theorem conflicts_with_unavailable_minutes (m : Meeting) (unavailable_start unavailable_end : Z) :
  start_min m < end_min m -> unavailable_start < unavailable_end ->
  let r := conflicts_with_unavailable m unavailable_start unavailable_end in
  (r = (false, 0) /\ (end_min m <= unavailable_start \/ start_min m >= unavailable_end)) \/
  (fst r = true /\ 0 < snd r /\ snd r <= end_min m - start_min m
   /\ snd r <= unavailable_end - unavailable_start
   /\ end_min m > unavailable_start /\ start_min m < unavailable_end).
Proof.
  intros Hm Hb. unfold conflicts_with_unavailable. simpl.
  destruct ((end_min m <=? unavailable_start) || (start_min m >=? unavailable_end)) eqn:Hd.
  - left. split; [reflexivity|]. apply orb_true_iff in Hd as [Hd|Hd]; [left | right]; lia.
  - right. apply orb_false_iff in Hd as [H1 H2]. simpl. lia.
Qed.

Lemma conflicts_with_unavailable_minutes_witness :
  600 < 680 /\ 660 < 720 /\
  conflicts_with_unavailable (mkMeeting MONDAY 600 680 None) 660 720 = (true, 20).
Proof.
  assert (start_min (mkMeeting MONDAY 600 680 None) < end_min (mkMeeting MONDAY 600 680 None))
    as H1 by (simpl; lia).
  assert (660 < 720) as H2 by lia.
  split; [exact H1|]. split; [exact H2|].
  destruct (conflicts_with_unavailable_minutes (mkMeeting MONDAY 600 680 None) 660 720 H1 H2)
    as [[Hr _] | _]; [discriminate Hr | reflexivity].
Defined.

(** X11: An offering conflicts with itself exactly when one of its meetings has
    a positive length; in particular a section without meetings, or whose
    meetings are all empty intervals, is compatible with itself. *)
Theorem overlaps_with_self (o : Offering) :
  overlaps_with o o = true <-> exists m, In m (meetings o) /\ start_min m < end_min m.
Proof.
  unfold overlaps_with. split.
  - intros H. apply existsb_exists in H as (m1 & H1 & H).
    apply existsb_exists in H as (m2 & H2 & H).
    unfold overlaps in H. destruct (decide (day m1 = day m2)); [|discriminate].
    apply negb_true_iff, orb_false_iff in H as [Ha Hb].
    destruct (decide (start_min m1 < end_min m1)) as [Hp|Hp]; [exists m1; auto|].
    exists m2. split; [exact H2 | lia].
  - intros (m & Hm & Hp). apply existsb_exists. exists m. split; [exact Hm|].
    apply existsb_exists. exists m. split; [exact Hm|].
    unfold overlaps. rewrite decide_True by reflexivity.
    apply negb_true_iff, orb_false_iff. split; lia.
Qed.



(** X13: Two schedules whose hashed tuples are equal compare equal. *)
Theorem Schedule_hash_key_eq (a b : Schedule) :
  Schedule_hash_key a = Schedule_hash_key b -> Schedule_eq a b = true.
Proof.
  unfold Schedule_hash_key, Schedule_eq, schedule_sig. intros H.
  apply bool_decide_eq_true_2. apply set_eq. intros c.
  rewrite !elem_of_list_to_set, !list_elem_of_In.
  rewrite <- (sorted_In String.leb c (map crn (offerings a))), H.
  apply sorted_In.
Qed.

Lemma StronglySorted_weaken {A : Type} (R R' : A -> A -> Prop) (l : list A) :
  (forall x y, R x y -> R' x y) -> StronglySorted R l -> StronglySorted R' l.
Proof.
  intros Himp. induction 1 as [|x l Hs IH Hx]; constructor; [exact IH|].
  rewrite List.Forall_forall in Hx |- *. auto.
Qed.

Lemma string_leb_trans (x y z : string) :
  String.leb x y = true -> String.leb y z = true -> String.leb x z = true.
Proof.
  intros H1 H2. apply Is_true_true.
  apply Is_true_true in H1, H2.
  exact (transitivity (R := String.le) H1 H2).
Qed.

(** X14: Conversely, two schedules that compare equal and list no CRN twice
    hash the same tuple. *)
Theorem Schedule_eq_hash_key (a b : Schedule) :
  NoDup (map crn (offerings a)) -> NoDup (map crn (offerings b)) ->
  Schedule_eq a b = true -> Schedule_hash_key a = Schedule_hash_key b.
Proof.
  unfold Schedule_hash_key, Schedule_eq, schedule_sig. intros Ha Hb Heq.
  apply bool_decide_eq_true_1 in Heq.
  assert (map crn (offerings a) ≡ₚ map crn (offerings b)) as Hperm.
  { apply NoDup_Permutation; try assumption. intros c.
    rewrite <- !(elem_of_list_to_set (C := gset string)), Heq. reflexivity. }
  apply (StronglySorted_unique String.le).
  - eapply StronglySorted_weaken; [| apply (sorted_ordered String.leb);
      [apply String.leb_total | apply string_leb_trans]].
    intros x y Hxy. apply Is_true_true, Hxy.
  - eapply StronglySorted_weaken; [| apply (sorted_ordered String.leb);
      [apply String.leb_total | apply string_leb_trans]].
    intros x y Hxy. apply Is_true_true, Hxy.
  - rewrite !sorted_perm. exact Hperm.
Qed.

Lemma Schedule_hash_key_eq_witness :
  Schedule_hash_key third_returned = Schedule_hash_key third_returned_reversed /\
  Schedule_eq third_returned third_returned_reversed = true.
Proof.
  assert (Schedule_hash_key third_returned = Schedule_hash_key third_returned_reversed)
    as H by (vm_compute; reflexivity).
  split; [exact H|].
  exact (Schedule_hash_key_eq third_returned third_returned_reversed H).
Defined.

Lemma Schedule_eq_hash_key_witness :
  NoDup (map crn (offerings third_returned)) /\
  NoDup (map crn (offerings third_returned_reversed)) /\
  Schedule_eq third_returned third_returned_reversed = true /\
  Schedule_hash_key third_returned = Schedule_hash_key third_returned_reversed.
Proof.
  assert (NoDup (map crn (offerings third_returned))) as H1
    by (apply (bool_decide_unpack _); vm_compute; exact I).
  assert (NoDup (map crn (offerings third_returned_reversed))) as H2
    by (apply (bool_decide_unpack _); vm_compute; exact I).
  assert (Schedule_eq third_returned third_returned_reversed = true) as H3
    by (vm_compute; reflexivity).
  split; [exact H1|]. split; [exact H2|]. split; [exact H3|].
  exact (Schedule_eq_hash_key third_returned third_returned_reversed H1 H2 H3).
Defined.

(** * Further properties of the normalizer *)

(** ** Stripping and case *)

Lemma lstrip_no_leading_space (s : string) : no_leading_space (Py.lstrip s) = true.
Proof.
  induction s as [|c s IH]; simpl; [reflexivity|].
  destruct (Py.isspace c) eqn:E; [exact IH | simpl; rewrite E; reflexivity].
Qed.

Lemma lstrip_id (s : string) : no_leading_space s = true -> Py.lstrip s = s.
Proof.
  destruct s as [|c s]; simpl; [reflexivity|].
  intros H. apply negb_true_iff in H. rewrite H. reflexivity.
Qed.

Lemma rstrip_cons_nonspace (c : ascii) (s : string) :
  Py.isspace c = false -> Py.rstrip (String c s) = String c (Py.rstrip s).
Proof. intros H. simpl. destruct (Py.rstrip s); [rewrite H|]; reflexivity. Qed.

Lemma rstrip_no_leading_space (s : string) :
  no_leading_space s = true -> no_leading_space (Py.rstrip s) = true.
Proof.
  destruct s as [|c s]; [reflexivity|]. intros H.
  assert (Py.isspace c = false) as Hc by (apply negb_true_iff, H).
  rewrite rstrip_cons_nonspace by exact Hc. exact H.
Qed.

Lemma rstrip_idem (s : string) : Py.rstrip (Py.rstrip s) = Py.rstrip s.
Proof.
  induction s as [|c s IH]; [reflexivity|]. simpl.
  destruct (Py.rstrip s) as [|c' r] eqn:Hr.
  - destruct (Py.isspace c) eqn:Hc; [reflexivity|]. simpl. rewrite Hc. reflexivity.
  - change (Py.rstrip (String c (String c' r)))
      with (match Py.rstrip (String c' r) with
            | EmptyString => if Py.isspace c then EmptyString else String c EmptyString
            | r' => String c r'
            end).
    rewrite IH. reflexivity.
Qed.

(** [strip] is idempotent. *)
Lemma strip_idem (s : string) : Py.strip (Py.strip s) = Py.strip s.
Proof.
  unfold Py.strip.
  rewrite (lstrip_id (Py.rstrip (Py.lstrip s)))
    by apply rstrip_no_leading_space, lstrip_no_leading_space.
  apply rstrip_idem.
Qed.

Lemma isspace_upper_char (c : ascii) : Py.isspace (Py.upper_char c) = Py.isspace c.
Proof. destruct c as [[] [] [] [] [] [] [] []]; reflexivity. Qed.


Lemma upper_char_idem (c : ascii) : Py.upper_char (Py.upper_char c) = Py.upper_char c.
Proof. destruct c as [[] [] [] [] [] [] [] []]; reflexivity. Qed.


Lemma map_string_compose (f g : ascii -> ascii) (s : string) :
  Py.map_string f (Py.map_string g s) = Py.map_string (fun c => f (g c)) s.
Proof. induction s as [|c s IH]; simpl; [reflexivity | rewrite IH; reflexivity]. Qed.

Lemma map_string_ext (f g : ascii -> ascii) (s : string) :
  (forall c, f c = g c) -> Py.map_string f s = Py.map_string g s.
Proof. intros H. induction s as [|c s IH]; simpl; [reflexivity | rewrite H, IH; reflexivity]. Qed.

Lemma upper_idem (s : string) : Py.upper (Py.upper s) = Py.upper s.
Proof. unfold Py.upper. rewrite map_string_compose. apply map_string_ext, upper_char_idem. Qed.


Section MapStrip.
Variable f : ascii -> ascii.
Hypothesis f_space : forall c, Py.isspace (f c) = Py.isspace c.

Lemma lstrip_map_string (s : string) :
  Py.lstrip (Py.map_string f s) = Py.map_string f (Py.lstrip s).
Proof.
  induction s as [|c s IH]; simpl; [reflexivity|].
  rewrite f_space. destruct (Py.isspace c); [exact IH | reflexivity].
Qed.

Lemma rstrip_map_string (s : string) :
  Py.rstrip (Py.map_string f s) = Py.map_string f (Py.rstrip s).
Proof.
  induction s as [|c s IH]; simpl; [reflexivity|].
  rewrite IH, f_space. destruct (Py.rstrip s); simpl; [destruct (Py.isspace c)|]; reflexivity.
Qed.

Lemma strip_map_string (s : string) :
  Py.strip (Py.map_string f s) = Py.map_string f (Py.strip s).
Proof. unfold Py.strip. rewrite lstrip_map_string, rstrip_map_string. reflexivity. Qed.
End MapStrip.





(** ** Times *)

(** X16: Whatever [parse_time] returns lies between 0 and 6759 minutes: the
    pattern admits hours and minutes up to 99, and the afternoon adds
    twelve hours. *)
Theorem parse_time_range (time_str : string) (t : Z) :
  parse_time time_str = Some t -> 0 <= t <= 6759.
Proof.
  unfold parse_time. destruct (blank_or_tba time_str); [discriminate|].
  destruct (match_time (Py.strip time_str)) as [[[g1 g2] g3]|] eqn:Hm; [|discriminate].
  apply match_time_groups in Hm as (H1 & H2 & _).
  intros [= <-].
  repeat match goal with |- context [if ?c then _ else _] => destruct c end; lia.
Qed.

Lemma parse_time_range_witness :
  parse_time "99:99 PM" = Some 6759 /\ 0 <= 6759 <= 6759.
Proof.
  assert (parse_time "99:99 PM" = Some 6759) as H by (vm_compute; reflexivity).
  split; [exact H|]. exact (parse_time_range "99:99 PM" 6759 H).
Defined.

(** X17: A time on a twelve-hour clock, with an hour of at most 12 and minutes
    of at most 59, parses to a minute of the day, below 1440. *)
Theorem parse_time_twelve_hour_clock (time_str g1 g2 g3 : string) (t : Z) :
  parse_time time_str = Some t -> match_time (Py.strip time_str) = Some (g1, g2, g3) ->
  Py.int g1 <= 12 -> Py.int g2 <= 59 -> 0 <= t < 1440.
Proof. exact (parse_time_clock time_str g1 g2 g3 t). Qed.

Lemma parse_time_twelve_hour_clock_witness :
  parse_time "11:59 PM" = Some 1439 /\
  match_time (Py.strip "11:59 PM") = Some ("11", "59", "PM") /\
  0 <= 1439 < 1440.
Proof.
  assert (parse_time "11:59 PM" = Some 1439) as H1 by (vm_compute; reflexivity).
  assert (match_time (Py.strip "11:59 PM") = Some ("11", "59", "PM")) as H2
    by (vm_compute; reflexivity).
  split; [exact H1|]. split; [exact H2|].
  apply (parse_time_twelve_hour_clock "11:59 PM" "11" "59" "PM" 1439 H1 H2);
    vm_compute; discriminate.
Defined.

(** ** Course keys *)

Lemma string_app_cons (c : ascii) (a b : string) :
  (String c a ++ b)%string = String c (a ++ b)%string.
Proof. reflexivity. Qed.

Lemma string_app_nil_r (s : string) : (s ++ EmptyString)%string = s.
Proof.
  induction s as [|c s IH]; [reflexivity|]. rewrite string_app_cons, IH. reflexivity.
Qed.

Lemma span_spec (p : ascii -> bool) (s a b : string) :
  span p s = (a, b) ->
  s = (a ++ b)%string /\ string_forall p a = true /\ head_fails p b = true.
Proof.
  revert a b. induction s as [|c s IH]; simpl; intros a b H.
  - injection H as <- <-. auto.
  - destruct (p c) eqn:Hc.
    + destruct (span p s) as [a' b'] eqn:Hs. injection H as <- <-.
      destruct (IH a' b' eq_refl) as (-> & Ha & Hb). simpl. rewrite Hc. auto.
    + injection H as <- <-. simpl. rewrite Hc. auto.
Qed.

Lemma span_unique (p : ascii -> bool) (a b : string) :
  string_forall p a = true -> head_fails p b = true -> span p (a ++ b)%string = (a, b).
Proof.
  intros Ha Hb. induction a as [|c a IH].
  - change (EmptyString ++ b)%string with b.
    destruct b as [|c b]; [reflexivity|]. simpl in Hb. apply negb_true_iff in Hb.
    simpl. rewrite Hb. reflexivity.
  - simpl in Ha. apply andb_true_iff in Ha as [Hc Ha].
    rewrite string_app_cons. simpl. rewrite Hc, (IH Ha). reflexivity.
Qed.

Lemma map_string_app (f : ascii -> ascii) (a b : string) :
  Py.map_string f (a ++ b)%string = (Py.map_string f a ++ Py.map_string f b)%string.
Proof.
  induction a as [|c a IH]; [reflexivity|].
  rewrite string_app_cons. simpl. rewrite IH. reflexivity.
Qed.

Lemma string_forall_impl (p q : ascii -> bool) (s : string) :
  (forall c, p c = true -> q c = true) -> string_forall p s = true -> string_forall q s = true.
Proof.
  intros H. induction s as [|c s IH]; simpl; [reflexivity|].
  intros Hs. apply andb_true_iff in Hs as [Hc Hs]. rewrite (H c Hc), (IH Hs). reflexivity.
Qed.

Lemma string_forall_app (p : ascii -> bool) (a b : string) :
  string_forall p (a ++ b)%string = string_forall p a && string_forall p b.
Proof.
  induction a as [|c a IH]; [reflexivity|].
  rewrite string_app_cons. simpl. rewrite IH, andb_assoc. reflexivity.
Qed.

Lemma upper_fixed (s : string) :
  string_forall (fun c => negb (Py.is_lower c)) s = true -> Py.upper s = s.
Proof.
  induction s as [|c s IH]; simpl; [reflexivity|]. intros H.
  apply andb_true_iff in H as [Hc Hs]. apply negb_true_iff in Hc.
  unfold Py.upper in *. simpl. unfold Py.upper_char at 1. rewrite Hc, (IH Hs). reflexivity.
Qed.

Lemma rstrip_fixed (s : string) :
  string_forall (fun c => negb (Py.isspace c)) s = true -> Py.rstrip s = s.
Proof.
  induction s as [|c s IH]; [reflexivity|]. simpl string_forall. intros H.
  apply andb_true_iff in H as [Hc Hs]. apply negb_true_iff in Hc.
  rewrite rstrip_cons_nonspace by exact Hc. rewrite (IH Hs). reflexivity.
Qed.

Lemma rstrip_app (a b : string) :
  Py.rstrip b <> EmptyString -> Py.rstrip (a ++ b)%string = (a ++ Py.rstrip b)%string.
Proof.
  intros Hb. induction a as [|c a IH]; [reflexivity|].
  change (Py.rstrip (String c a ++ b)%string)
    with (match Py.rstrip (a ++ b)%string with
          | EmptyString => if Py.isspace c then EmptyString else String c EmptyString
          | r => String c r
          end).
  rewrite IH, string_app_cons. destruct (a ++ Py.rstrip b)%string eqn:E; [|reflexivity].
  exfalso. destruct a; [apply Hb; exact E | rewrite string_app_cons in E; discriminate].
Qed.

Lemma is_upper_chars (c : ascii) :
  Py.is_upper c = true ->
  Py.is_lower c = false /\ Py.isspace c = false /\ Py.is_digit c = false.
Proof. destruct c as [[] [] [] [] [] [] [] []]; vm_compute; intros H; auto; discriminate. Qed.

Lemma is_digit_chars (c : ascii) :
  Py.is_digit c = true -> Py.is_lower c = false /\ Py.isspace c = false.
Proof. destruct c as [[] [] [] [] [] [] [] []]; vm_compute; intros H; auto; discriminate. Qed.

Lemma upper_char_not_lower (c : ascii) : Py.is_lower (Py.upper_char c) = false.
Proof. destruct c as [[] [] [] [] [] [] [] []]; reflexivity. Qed.

(** A course key, once extracted, is extracted to itself. *)
Lemma extract_course_key_matched (subject catalog suffix : string) :
  string_forall Py.is_upper subject = true -> Py.truthy subject = true ->
  string_forall Py.is_digit catalog = true -> Py.truthy catalog = true ->
  string_forall Py.is_upper suffix = true ->
  extract_course_key (subject ++ " " ++ catalog ++ suffix)
  = (subject ++ " " ++ catalog ++ suffix)%string.
Proof.
  intros Hsub Hsub1 Hcat Hcat1 Hsuf.
  set (tail := (catalog ++ suffix)%string).
  assert (string_forall (fun c => negb (Py.isspace c)) tail = true) as Htail_ns.
  { unfold tail. rewrite string_forall_app. apply andb_true_iff. split.
    - eapply string_forall_impl; [|exact Hcat]. intros c Hc.
      apply is_digit_chars in Hc as [_ ->]. reflexivity.
    - eapply string_forall_impl; [|exact Hsuf]. intros c Hc.
      apply is_upper_chars in Hc as (_ & -> & _). reflexivity. }
  assert (tail <> EmptyString) as Htail_ne.
  { unfold tail. destruct catalog; [discriminate Hcat1 | discriminate]. }
  assert (no_leading_space tail = true) as Htail_head.
  { destruct tail as [|c t]; [reflexivity|]. simpl in Htail_ns |- *.
    apply andb_true_iff in Htail_ns as [-> _]. reflexivity. }
  assert (Py.strip (subject ++ " " ++ tail) = (subject ++ " " ++ tail)%string) as Hstrip.
  { unfold Py.strip. rewrite lstrip_id.
    - rewrite rstrip_app; [rewrite rstrip_app|].
      + rewrite rstrip_fixed by exact Htail_ns. reflexivity.
      + rewrite rstrip_fixed by exact Htail_ns. exact Htail_ne.
      + rewrite rstrip_app by (rewrite rstrip_fixed by exact Htail_ns; exact Htail_ne).
        discriminate.
    - destruct subject as [|c subject]; [discriminate Hsub1|]. simpl in Hsub |- *.
      apply andb_true_iff in Hsub as [Hc _]. apply is_upper_chars in Hc as (_ & -> & _).
      reflexivity. }
  assert (Py.upper (subject ++ " " ++ tail) = (subject ++ " " ++ tail)%string) as Hupper.
  { apply upper_fixed. rewrite !string_forall_app. unfold tail. rewrite string_forall_app.
    repeat (apply andb_true_iff; split); try reflexivity.
    - eapply string_forall_impl; [|exact Hsub]. intros c Hc.
      apply is_upper_chars in Hc as (-> & _). reflexivity.
    - eapply string_forall_impl; [|exact Hcat]. intros c Hc.
      apply is_digit_chars in Hc as (-> & _). reflexivity.
    - eapply string_forall_impl; [|exact Hsuf]. intros c Hc.
      apply is_upper_chars in Hc as (-> & _). reflexivity. }
  unfold extract_course_key.
  replace (Py.truthy (subject ++ " " ++ tail)) with true
    by (destruct subject; [discriminate Hsub1 | reflexivity]).
  simpl negb. cbv iota. rewrite Hstrip, Hupper.
  rewrite (span_unique Py.is_upper subject (" " ++ tail) Hsub eq_refl).
  change (Py.lstrip (" " ++ tail)) with (Py.lstrip tail).
  rewrite (lstrip_id tail Htail_head). unfold tail.
  rewrite (span_unique Py.is_digit catalog suffix Hcat).
  - rewrite <- (string_app_nil_r suffix) at 1.
    rewrite (span_unique Py.is_upper suffix EmptyString Hsuf eq_refl).
    rewrite Hsub1, Hcat1. reflexivity.
  - destruct suffix as [|c suffix]; [reflexivity|]. simpl in Hsuf |- *.
    apply andb_true_iff in Hsuf as [Hc _]. apply is_upper_chars in Hc as (_ & _ & ->).
    reflexivity.
Qed.

Lemma extract_course_key_fixed (course_str : string) :
  extract_course_key (extract_course_key course_str) = extract_course_key course_str.
Proof.
  destruct (Py.truthy course_str) eqn:Ht;
    [| destruct course_str; [reflexivity | discriminate Ht]].
  unfold extract_course_key at 2 3. rewrite Ht. simpl negb. cbv iota.
  set (s := Py.upper (Py.strip course_str)).
  destruct (span Py.is_upper s) as [subject r1] eqn:H1.
  destruct (span Py.is_digit (Py.lstrip r1)) as [catalog r2] eqn:H2.
  destruct (span Py.is_upper r2) as [suffix r3] eqn:H3.
  destruct (Py.truthy subject && Py.truthy catalog) eqn:Hmatch.
  - apply andb_true_iff in Hmatch as [Hs Hc].
    apply span_spec in H1 as (_ & Hsub & _).
    apply span_spec in H2 as (_ & Hcat & _).
    apply span_spec in H3 as (_ & Hsuf & _).
    apply extract_course_key_matched; assumption.
  - unfold extract_course_key.
    destruct (Py.truthy s) eqn:Hts; simpl negb; cbv iota;
      [| destruct s; [reflexivity | discriminate Hts]].
    assert (Py.upper (Py.strip s) = s) as ->.
    { unfold s. unfold Py.upper at 2. rewrite (strip_map_string _ isspace_upper_char).
      fold (Py.upper (Py.strip (Py.strip course_str))).
      rewrite strip_idem, upper_idem. reflexivity. }
    rewrite H1, H2, H3, Hmatch. reflexivity.
Qed.

(** X18: [extract_course_key] is idempotent: the keys it produces are the keys
    it accepts unchanged, so a key read from the catalog can be sent back
    in a request as it is. *)
Theorem extract_course_key_idempotent (course_str : string) :
  extract_course_key (extract_course_key course_str) = extract_course_key course_str.
Proof. exact (extract_course_key_fixed course_str). Qed.

(** The extracted key is empty only for a blank course string. *)
Lemma extract_course_key_empty (course_str : string) :
  extract_course_key course_str = EmptyString <-> Py.strip course_str = EmptyString.
Proof.
  unfold extract_course_key.
  destruct (Py.truthy course_str) eqn:Ht; simpl negb; cbv iota.
  - destruct (span Py.is_upper (Py.upper (Py.strip course_str))) as [subject r1] eqn:H1.
    destruct (span Py.is_digit (Py.lstrip r1)) as [catalog r2].
    destruct (span Py.is_upper r2) as [suffix r3].
    destruct (Py.truthy subject && Py.truthy catalog) eqn:Hmatch.
    + apply andb_true_iff in Hmatch as [Hs _].
      apply span_spec in H1 as (Heq & _ & _).
      split.
      * intros H. destruct subject; [discriminate Hs | discriminate H].
      * intros H. rewrite H in Heq. destruct subject; [discriminate Hs | discriminate Heq].
    + unfold Py.upper. destruct (Py.strip course_str); simpl; split; congruence.
  - destruct course_str; [|discriminate Ht]. split; reflexivity.
Qed.

(** ** Rows *)

Lemma truthy_false_iff (s : string) : Py.truthy s = false <-> s = EmptyString.
Proof. destruct s; simpl; split; congruence. Qed.

(** X19: A row is dropped exactly when its CRN is blank, its course is blank,
    or one of its three numeric cells cannot be converted. *)
Theorem normalize_csv_row_dropped (row : Row) :
  normalize_csv_row row = None <->
  Py.strip (row_CRN row) = EmptyString \/ Py.strip (row_Course row) = EmptyString \/
  row_Max row = Invalid \/ row_Now row = Invalid \/ row_Credits row = Invalid.
Proof.
  unfold normalize_csv_row.
  destruct (Py.truthy (Py.strip (row_CRN row))) eqn:Hcrn; simpl negb; cbv iota.
  2: { apply truthy_false_iff in Hcrn. tauto. }
  destruct (Py.truthy (extract_course_key (Py.strip (row_Course row)))) eqn:Hck;
    simpl negb; cbv iota.
  2: { apply truthy_false_iff, extract_course_key_empty in Hck.
       rewrite strip_idem in Hck. tauto. }
  assert (Py.strip (row_CRN row) <> EmptyString) as Hcrn'
    by (intros E; rewrite E in Hcrn; discriminate).
  assert (Py.strip (row_Course row) <> EmptyString) as Hck'.
  { intros E. rewrite E in Hck. discriminate. }
  destruct (row_Max row), (row_Now row), (row_Credits row); simpl;
    split; try discriminate; try tauto;
    intros [H|[H|[H|[H|H]]]]; try contradiction; discriminate.
Qed.

(** The offering of a row that is kept carries the stripped CRN and the
    extracted course key, and neither is empty. *)
Lemma normalize_csv_row_keys (row : Row) (o : Offering) :
  normalize_csv_row row = Some o ->
  crn o = Py.strip (row_CRN row) /\ crn o <> EmptyString /\
  course_key o = extract_course_key (Py.strip (row_Course row)) /\
  course_key o <> EmptyString.
Proof.
  unfold normalize_csv_row.
  destruct (Py.truthy (Py.strip (row_CRN row))) eqn:Hcrn; simpl negb; cbv iota;
    [|discriminate].
  destruct (Py.truthy (extract_course_key (Py.strip (row_Course row)))) eqn:Hck;
    simpl negb; cbv iota; [|discriminate].
  destruct (convert (row_Max row)); [|discriminate].
  destruct (convert (row_Now row)); [|discriminate].
  destruct (convert (row_Credits row)); [|discriminate].
  simpl. intros [= <-]. simpl. repeat split.
  - intros E. rewrite E in Hcrn. discriminate.
  - intros E. rewrite E in Hck. discriminate.
Qed.

(** ** Merging by CRN *)

Lemma meeting_exists_iff (m : Meeting) (ms : list Meeting) :
  meeting_exists m ms = true <-> In (triple m) (map triple ms).
Proof.
  unfold meeting_exists. rewrite existsb_exists, in_map_iff. split.
  - intros (x & Hx & H). exists x. split; [|exact Hx].
    apply andb_true_iff in H as [H He]. apply andb_true_iff in H as [Hd Hs].
    apply bool_decide_eq_true_1 in Hd. apply Z.eqb_eq in Hs, He.
    unfold triple. congruence.
  - intros (x & Hx & Hin). exists x. split; [exact Hin|].
    unfold triple in Hx. injection Hx as Hd Hs He.
    rewrite bool_decide_eq_true_2 by exact Hd. rewrite Hs, He, !Z.eqb_refl. reflexivity.
Qed.

Lemma merge_meetings_shape (existing offering : Offering) :
  exists ms, merge_meetings existing offering = set_meetings existing (meetings existing ++ ms)%list.
Proof.
  unfold merge_meetings. generalize (meetings offering). intros l. revert existing.
  induction l as [|m l IH]; intros existing; simpl.
  - exists []. rewrite app_nil_r, set_meetings_id. reflexivity.
  - destruct (meeting_exists m (meetings existing)); [apply IH|].
    destruct (IH (set_meetings existing (meetings existing ++ [m])%list)) as [ms Hms].
    exists (m :: ms). rewrite Hms. simpl. rewrite <- app_assoc. reflexivity.
Qed.

(** The meetings of a merged offering are, as triples, those of the two
    offerings. *)
Lemma merge_meetings_triples (existing offering : Offering) (t : DayOfWeek * Z * Z) :
  In t (map triple (meetings (merge_meetings existing offering))) <->
  In t (map triple (meetings existing)) \/ In t (map triple (meetings offering)).
Proof.
  unfold merge_meetings. generalize (meetings offering). intros l. revert existing.
  induction l as [|m l IH]; intros existing; simpl; [tauto|].
  destruct (meeting_exists m (meetings existing)) eqn:Hex.
  - rewrite IH. apply meeting_exists_iff in Hex. split; [tauto|].
    intros [H|[H|H]]; [tauto | subst t; tauto | tauto].
  - rewrite IH. simpl. rewrite map_app, in_app_iff. simpl. tauto.
Qed.

Lemma merge_meetings_attributes (existing offering o : Offering) :
  set_meetings existing (meetings o) = o ->
  set_meetings (merge_meetings existing offering) (meetings o) = o.
Proof.
  intros H. destruct (merge_meetings_shape existing offering) as [ms ->]. exact H.
Qed.

Lemma crn_map_step_In (x : Offering) (crn_map : list (string * Offering))
    (k : string) (o' : Offering) :
  NoDup (map fst crn_map) ->
  In (k, o') (crn_map_step x crn_map) <->
  (k <> crn x /\ In (k, o') crn_map) \/
  (k = crn x /\ ~ In k (map fst crn_map) /\ o' = x) \/
  (k = crn x /\ exists existing, In (k, existing) crn_map /\ o' = merge_meetings existing x).
Proof.
  induction crn_map as [|[k0 ex] rest IH]; simpl; intros Hnd.
  - split.
    + intros [[= <- <-]|[]]. right. left. tauto.
    + intros [[_ []]|[(-> & _ & ->)|(_ & e & [] & _)]]. left. reflexivity.
  - apply NoDup_cons in Hnd as [Hk0 Hnd]. rewrite list_elem_of_In in Hk0.
    destruct (decide (k0 = crn x)) as [E|E]; simpl.
    + subst k0. split.
      * intros [[= <- <-]|H].
        -- right. right. split; [reflexivity|]. exists ex. auto.
        -- left. split; [|right; exact H].
           intros ->. apply Hk0. apply (in_map fst _ _ H).
      * intros [[Hne [[= Hk _]|H]]|[(-> & Hn & _)|(-> & e & [[= <-]|He] & ->)]].
        -- congruence.
        -- right. exact H.
        -- exfalso. apply Hn. left. reflexivity.
        -- left. reflexivity.
        -- exfalso. apply Hk0. apply (in_map fst _ _ He).
    + rewrite (IH Hnd). split.
      * intros [[= <- <-]|[[Hne H]|[(-> & Hn & ->)|(-> & e & He & ->)]]].
        -- left. split; [exact E | left; reflexivity].
        -- left. split; [exact Hne | right; exact H].
        -- right. left. repeat split. intros [H|H]; [congruence | contradiction].
        -- right. right. split; [reflexivity|]. exists e. auto.
      * intros [[Hne [[= <- <-]|H]]|[(-> & Hn & ->)|(-> & e & [[= Hk _]|He] & ->)]].
        -- left. reflexivity.
        -- right. left. auto.
        -- right. right. left. repeat split. intros H. apply Hn. right. exact H.
        -- congruence.
        -- right. right. right. split; [reflexivity|]. exists e. auto.
Qed.

Lemma first_with_crn_app (c : string) (l : list Offering) (x : Offering) :
  first_with_crn c (l ++ [x]) =
  match first_with_crn c l with
  | Some o => Some o
  | None => if bool_decide (crn x = c) then Some x else None
  end.
Proof.
  unfold first_with_crn. induction l as [|y l IH]; simpl; [reflexivity|].
  destruct (bool_decide (crn y = c)); [reflexivity | exact IH].
Qed.

Lemma first_with_crn_None (c : string) (l : list Offering) :
  (forall x, In x l -> crn x <> c) -> first_with_crn c l = None.
Proof.
  unfold first_with_crn. induction l as [|y l IH]; simpl; intros H; [reflexivity|].
  rewrite bool_decide_eq_false_2 by (apply H; left; reflexivity).
  apply IH. intros x Hx. apply H. right. exact Hx.
Qed.

Lemma first_with_crn_Some (c : string) (l : list Offering) (o : Offering) :
  first_with_crn c l = Some o -> In o l /\ crn o = c.
Proof.
  unfold first_with_crn. intros H. apply find_some in H as [Hin Hc].
  apply bool_decide_eq_true_1 in Hc. auto.
Qed.

Lemma crn_map_inv_step (l : list Offering) (crn_map : list (string * Offering)) (x : Offering) :
  crn_map_inv l crn_map -> crn_map_inv (l ++ [x]) (crn_map_step x crn_map).
Proof.
  intros (Hnd & Hcover & Hval).
  assert (NoDup (map fst (crn_map_step x crn_map))) as Hnd'.
  { rewrite crn_map_step_keys. destruct (decide _) as [H|H]; [exact Hnd|].
    apply NoDup_app. split; [exact Hnd|]. split; [|apply NoDup_singleton].
    intros y Hy Hy'. apply list_elem_of_singleton in Hy'. subst y. contradiction. }
  assert (forall k, In k (map fst crn_map) -> In k (map fst (crn_map_step x crn_map))) as Hmono.
  { intros k Hk. rewrite crn_map_step_keys. destruct (decide _); [exact Hk|].
    apply in_app_iff. left. exact Hk. }
  split; [exact Hnd'|]. split.
  - intros y Hy. apply in_app_iff in Hy as [Hy|[<-|[]]]; [apply Hmono, Hcover, Hy|].
    rewrite crn_map_step_keys. destruct (decide _) as [H|H].
    + apply list_elem_of_In, H.
    + apply in_app_iff. right. left. reflexivity.
  - intros k o' Hin. apply (crn_map_step_In x crn_map k o' Hnd) in Hin.
    destruct Hin as [[Hne Hin]|[(-> & Hfresh & ->)|(-> & ex & Hin & ->)]].
    + destruct (Hval k o' Hin) as (Hk & o & Hfirst & Hattr & Htr).
      split; [exact Hk|]. exists o. split; [|split; [exact Hattr|]].
      * rewrite first_with_crn_app, Hfirst. reflexivity.
      * intros t. rewrite Htr. split.
        -- intros (y & Hy & Hc & Ht). exists y. rewrite in_app_iff. auto.
        -- intros (y & Hy & Hc & Ht). apply in_app_iff in Hy as [Hy|[<-|[]]];
             [exists y; auto | congruence].
    + split; [reflexivity|]. exists x. split; [|split; [apply set_meetings_id|]].
      * rewrite first_with_crn_app, first_with_crn_None.
        -- rewrite bool_decide_eq_true_2 by reflexivity. reflexivity.
        -- intros y Hy Hc. apply Hfresh. rewrite <- Hc. apply Hcover, Hy.
      * intros t. split.
        -- intros Ht. exists x. rewrite in_app_iff. simpl. auto.
        -- intros (y & Hy & Hc & Ht). apply in_app_iff in Hy as [Hy|[<-|[]]]; [|exact Ht].
           exfalso. apply Hfresh. rewrite <- Hc. apply Hcover, Hy.
    + destruct (Hval (crn x) ex Hin) as (Hk & o & Hfirst & Hattr & Htr).
      split; [rewrite merge_meetings_crn; exact Hk|].
      exists o. split; [|split; [apply merge_meetings_attributes, Hattr|]].
      * rewrite first_with_crn_app, Hfirst. reflexivity.
      * intros t. rewrite merge_meetings_triples, Htr. split.
        -- intros [(y & Hy & Hc & Ht)|Ht].
           ++ exists y. rewrite in_app_iff. auto.
           ++ exists x. rewrite in_app_iff. simpl. auto.
        -- intros (y & Hy & Hc & Ht). apply in_app_iff in Hy as [Hy|[<-|[]]].
           ++ left. exists y. auto.
           ++ right. exact Ht.
Qed.

Lemma crn_map_of_snoc (l : list Offering) (x : Offering) :
  crn_map_of (l ++ [x]) = crn_map_step x (crn_map_of l).
Proof. unfold crn_map_of. rewrite fold_left_app. reflexivity. Qed.

Lemma crn_map_of_inv (l : list Offering) : crn_map_inv l (crn_map_of l).
Proof.
  induction l as [|x l IH] using rev_ind.
  - split; [constructor|]. split; [intros x [] | intros k o' []].
  - rewrite crn_map_of_snoc. apply crn_map_inv_step, IH.
Qed.

Lemma merge_offerings_by_crn_keys (l : list Offering) :
  NoDup (map crn (merge_offerings_by_crn l)) /\
  forall c, In c (map crn (merge_offerings_by_crn l)) <-> In c (map crn l).
Proof.
  destruct (crn_map_of_inv l) as (Hnd & Hcover & Hval).
  assert (map crn (merge_offerings_by_crn l) = map fst (crn_map_of l)) as Hkeys.
  { unfold merge_offerings_by_crn. fold (crn_map_of l).
    assert (forall k o', In (k, o') (crn_map_of l) -> crn o' = k) as Hk
      by (intros k o' H; apply (Hval k o' H)).
    revert Hk. generalize (crn_map_of l). intros m Hk.
    induction m as [|[k v] m IH]; simpl; [reflexivity|].
    rewrite (Hk k v) by (left; reflexivity). rewrite IH; [reflexivity|].
    intros k' o' H. apply Hk. right. exact H. }
  rewrite Hkeys. split; [exact Hnd|]. intros c. split.
  - intros H. apply in_map_iff in H as ([k o'] & <- & Hin). simpl.
    destruct (Hval k o' Hin) as (_ & o & Hfirst & _).
    apply first_with_crn_Some in Hfirst as [Ho <-]. apply in_map, Ho.
  - intros H. apply in_map_iff in H as (x & <- & Hx). apply Hcover, Hx.
Qed.

(** X20: [merge_offerings_by_crn] keeps exactly the CRNs of its input, each
    once. *)
Theorem merge_offerings_by_crn_crns (l : list Offering) :
  NoDup (map crn (merge_offerings_by_crn l)) /\
  forall c, In c (map crn (merge_offerings_by_crn l)) <-> In c (map crn l).
Proof. exact (merge_offerings_by_crn_keys l). Qed.

(** X21: Each merged offering is the first input offering with its CRN, except
    for its meetings, which are, as (day, start, end) triples, exactly the
    meetings of all input offerings with that CRN. *)
Theorem merge_offerings_by_crn_union (l : list Offering) (o' : Offering) :
  In o' (merge_offerings_by_crn l) ->
  exists o,
    first_with_crn (crn o') l = Some o /\
    set_meetings o' (meetings o) = o /\
    forall t, In t (map triple (meetings o')) <->
              exists x, In x l /\ crn x = crn o' /\ In t (map triple (meetings x)).
Proof.
  unfold merge_offerings_by_crn. fold (crn_map_of l). intros H.
  apply in_map_iff in H as ([k v] & <- & Hin). simpl.
  destruct (crn_map_of_inv l) as (_ & _ & Hval).
  destruct (Hval k v Hin) as (-> & Hrest). exact Hrest.
Qed.

Lemma merge_offerings_by_crn_id (l : list Offering) :
  NoDup (map crn l) -> merge_offerings_by_crn l = l.
Proof.
  intros Hnd. unfold merge_offerings_by_crn.
  rewrite (crn_map_fold_fresh l []) by (auto; intros o _ []). simpl.
  rewrite map_map. simpl. apply map_id.
Qed.

(** X22: Merging is idempotent, and the deduplication that follows it in
    [normalize_multiple_csvs] removes nothing: after the merge no two
    offerings share a CRN, so no two share a signature. *)
Theorem merge_then_deduplicate (l : list Offering) :
  merge_offerings_by_crn (merge_offerings_by_crn l) = merge_offerings_by_crn l /\
  deduplicate_offerings (merge_offerings_by_crn l) = merge_offerings_by_crn l.
Proof.
  split.
  - apply merge_offerings_by_crn_id, merge_offerings_by_crn_distinct.
  - apply deduplicate_distinct, merge_offerings_by_crn_distinct.
Qed.

Lemma merge_offerings_by_crn_union_witness :
  In tuesday_thursday_offering
     (merge_offerings_by_crn [tuesday_offering; other_offering; thursday_offering]) /\
  exists o,
    first_with_crn "11757" [tuesday_offering; other_offering; thursday_offering] = Some o /\
    set_meetings tuesday_thursday_offering (meetings o) = o.
Proof.
  assert (In tuesday_thursday_offering
            (merge_offerings_by_crn [tuesday_offering; other_offering; thursday_offering]))
    as H by (vm_compute; left; reflexivity).
  split; [exact H|].
  destruct (merge_offerings_by_crn_union _ _ H) as (o & H1 & H2 & _).
  exists o. split; [exact H1 | exact H2].
Defined.

(** ** Deduplication *)

Lemma dedup_state_snoc (l : list Offering) (x : Offering) :
  dedup_state (l ++ [x]) = dedup_step (dedup_state l) x.
Proof. unfold dedup_state. rewrite fold_left_app. reflexivity. Qed.

Lemma dedup_state_inv (l : list Offering) :
  fst (dedup_state l) = list_to_set (map offering_sig (snd (dedup_state l))) /\
  NoDup (map offering_sig (snd (dedup_state l))) /\
  sublist (snd (dedup_state l)) l /\
  (forall o, In o l -> offering_sig o ∈ fst (dedup_state l)).
Proof.
  induction l as [|x l IH] using rev_ind.
  - simpl. repeat split; [constructor | constructor | intros o []].
  - rewrite dedup_state_snoc. destruct (dedup_state l) as [seen unique]. simpl in IH.
    destruct IH as (Hseen & Hnd & Hsub & Hall). unfold dedup_step.
    fold (offering_sig x).
    destruct (decide (offering_sig x ∈ seen)) as [Hin|Hnot]; simpl.
    + split; [exact Hseen|]. split; [exact Hnd|]. split.
      * apply sublist_inserts_r, Hsub.
      * intros o Ho. apply in_app_iff in Ho as [Ho|[<-|[]]]; [apply Hall, Ho | exact Hin].
    + split; [|split; [|split]].
      * rewrite map_app, list_to_set_app_L. simpl. rewrite Hseen.
        rewrite (right_id_L ∅ (∪)). apply (comm_L (∪)).
      * rewrite map_app. apply NoDup_app. split; [exact Hnd|]. split; [|apply NoDup_singleton].
        intros s Hs Hs'. apply list_elem_of_singleton in Hs'. subst s.
        apply Hnot. rewrite Hseen. apply elem_of_list_to_set, Hs.
      * apply sublist_app; [exact Hsub | reflexivity].
      * intros o Ho. apply in_app_iff in Ho as [Ho|[<-|[]]].
        -- apply elem_of_union. right. apply Hall, Ho.
        -- apply elem_of_union. left. apply elem_of_singleton. reflexivity.
Qed.

Lemma deduplicate_offerings_spec_aux (l : list Offering) :
  NoDup (map offering_sig (deduplicate_offerings l)).
Proof.
  unfold deduplicate_offerings. fold (dedup_state l). apply (dedup_state_inv l).
Qed.

(** X23: [deduplicate_offerings] returns a subsequence of its input in which no
    two offerings have the same CRN and the same sorted meetings, and in
    which every offering of the input still has one with its signature. *)
Theorem deduplicate_offerings_spec (l : list Offering) :
  sublist (deduplicate_offerings l) l /\
  NoDup (map offering_sig (deduplicate_offerings l)) /\
  forall o, In o l ->
    exists o', In o' (deduplicate_offerings l) /\ offering_sig o' = offering_sig o.
Proof.
  unfold deduplicate_offerings. fold (dedup_state l).
  destruct (dedup_state_inv l) as (Hseen & Hnd & Hsub & Hall).
  split; [exact Hsub|]. split; [exact Hnd|].
  intros o Ho. specialize (Hall o Ho). rewrite Hseen in Hall.
  apply elem_of_list_to_set, list_elem_of_In, in_map_iff in Hall as (o' & Hsig & Hin).
  exists o'. auto.
Qed.

Lemma dedup_fold_fresh (l : list Offering)
    (seen : gset (string * list (DayOfWeek * Z * Z))) (unique : list Offering) :
  NoDup (map offering_sig l) ->
  (forall sig, sig ∈ seen -> ~ In sig (map offering_sig l)) ->
  snd (fold_left dedup_step l (seen, unique)) = (unique ++ l)%list.
Proof.
  revert seen unique. induction l as [|o l IH]; intros seen unique Hnd Hseen; simpl.
  - rewrite app_nil_r. reflexivity.
  - apply NoDup_cons in Hnd as [Hfresh Hnd]. fold (offering_sig o).
    destruct (decide (offering_sig o ∈ seen)) as [Hin|Hnot].
    + exfalso. apply (Hseen _ Hin). left. reflexivity.
    + rewrite IH.
      * rewrite <- app_assoc. reflexivity.
      * exact Hnd.
      * intros sig Hsig Hl. apply elem_of_union in Hsig as [Hsig|Hsig].
        -- apply elem_of_singleton in Hsig. subst sig.
           apply Hfresh, list_elem_of_In, Hl.
        -- apply (Hseen _ Hsig). right. exact Hl.
Qed.

(** X24: [deduplicate_offerings] is idempotent. *)
Theorem deduplicate_offerings_idempotent (l : list Offering) :
  deduplicate_offerings (deduplicate_offerings l) = deduplicate_offerings l.
Proof.
  pose proof (deduplicate_offerings_spec_aux l) as Hnd.
  unfold deduplicate_offerings at 1.
  rewrite dedup_fold_fresh; [reflexivity | exact Hnd |].
  intros sig Hsig. apply not_elem_of_empty in Hsig. contradiction.
Qed.

(** ** The catalog *)

Lemma merged_offering_origin (l : list Offering) (o' : Offering) :
  In o' (merge_offerings_by_crn l) ->
  exists o, In o l /\ crn o = crn o' /\ course_key o = course_key o'.
Proof.
  unfold merge_offerings_by_crn. fold (crn_map_of l). intros H.
  apply in_map_iff in H as ([k v] & <- & Hin). simpl.
  destruct (crn_map_of_inv l) as (_ & _ & Hval).
  destruct (Hval k v Hin) as (Hk & o & Hfirst & Hattr & _).
  apply first_with_crn_Some in Hfirst as [Ho Hc].
  exists o. split; [exact Ho|]. split; [congruence|].
  rewrite <- Hattr. reflexivity.
Qed.

(** X25: The catalog that [normalize_multiple_csvs] builds: no two offerings
    share a CRN; its CRNs are exactly those of the rows that are kept; and
    every offering has a non-empty CRN and a non-empty course key that
    [extract_course_key] leaves as it is. *)
Theorem normalize_catalog_invariants (rows : list Row) :
  NoDup (map crn (normalize_catalog rows)) /\
  (forall c, In c (map crn (normalize_catalog rows)) <->
             exists row o, In row rows /\ normalize_csv_row row = Some o /\ crn o = c) /\
  Forall (fun o => crn o <> EmptyString /\ course_key o <> EmptyString /\
                   extract_course_key (course_key o) = course_key o)
         (normalize_catalog rows).
Proof.
  unfold normalize_catalog.
  rewrite deduplicate_distinct by apply merge_offerings_by_crn_distinct.
  destruct (merge_offerings_by_crn_keys (normalize_rows rows)) as [Hnd Hcrns].
  assert (forall o, In o (normalize_rows rows) <->
                    exists row, In row rows /\ normalize_csv_row row = Some o) as Hrows.
  { intros o. unfold normalize_rows. rewrite <- list_elem_of_In, list_elem_of_omap.
    split; intros (row & H1 & H2); exists row; split; try assumption;
      apply list_elem_of_In; assumption. }
  split; [exact Hnd|]. split.
  - intros c. rewrite Hcrns, in_map_iff. split.
    + intros (o & Hc & Ho). apply Hrows in Ho as (row & Hrow & Hn). eauto.
    + intros (row & o & Hrow & Hn & Hc). exists o. split; [exact Hc|].
      apply Hrows. eauto.
  - rewrite List.Forall_forall. intros o' Ho'.
    apply merged_offering_origin in Ho' as (o & Ho & Hc & Hk).
    apply Hrows in Ho as (row & _ & Hn).
    apply normalize_csv_row_keys in Hn as (_ & Hcrn & Hkey & Hkne).
    rewrite <- Hc, <- Hk. split; [exact Hcrn|]. split; [exact Hkne|].
    rewrite Hkey. apply extract_course_key_fixed.
Qed.

(** * Properties of the callers *)

(** ** Ingesting a file *)

Lemma ingest_fold_spec (new_offerings catalog : list Offering) (existing : gset string)
    (added : nat) :
  existing = list_to_set (map crn catalog) ->
  exists extra,
    fold_left ingest_step new_offerings (catalog, existing, added)
    = ((catalog ++ extra)%list, list_to_set (map crn (catalog ++ extra)),
       (added + length extra)%nat) /\
    sublist extra new_offerings /\
    (NoDup (map crn catalog) -> NoDup (map crn (catalog ++ extra))) /\
    (forall c, In c (map crn (catalog ++ extra)) <->
               In c (map crn catalog) \/ In c (map crn new_offerings)).
Proof.
  revert catalog existing added.
  induction new_offerings as [|o new_offerings IH]; intros catalog existing added Hex.
  - exists []. simpl. rewrite app_nil_r, Nat.add_0_r. subst existing.
    repeat split; try tauto. constructor.
  - simpl. destruct (decide (crn o ∈ existing)) as [Hin|Hnot].
    + destruct (IH catalog existing added Hex) as (extra & Hfold & Hsub & Hnd & Hcrns).
      exists extra. split; [exact Hfold|]. split; [apply sublist_cons, Hsub|].
      split; [exact Hnd|]. intros c. rewrite Hcrns. split; [tauto|].
      intros [H|[<-|H]]; [tauto | | tauto].
      left. subst existing. apply elem_of_list_to_set in Hin. apply list_elem_of_In, Hin.
    + destruct (IH (catalog ++ [o])%list ({[ crn o ]} ∪ existing) (S added))
        as (extra & Hfold & Hsub & Hnd & Hcrns).
      { subst existing. rewrite map_app, list_to_set_app_L. simpl.
        rewrite (right_id_L ∅ (∪)). apply (comm_L (∪)). }
      exists (o :: extra). rewrite <- app_assoc in Hfold, Hnd, Hcrns. simpl in *.
      split; [rewrite Hfold; f_equal; lia|]. split; [apply sublist_skip, Hsub|]. split.
      * intros Hc. apply Hnd. rewrite map_app. apply NoDup_app. split; [exact Hc|].
        split; [|apply NoDup_singleton].
        intros c Hc1 Hc2. apply list_elem_of_singleton in Hc2. subst c.
        apply Hnot. subst existing. apply elem_of_list_to_set, Hc1.
      * intros c. rewrite Hcrns, map_app, in_app_iff. simpl. tauto.
Qed.

(** X26: Ingesting a file appends to the catalog, in order, the new offerings
    whose CRN is not yet present, and counts them: what was in the catalog
    stays as it was, the CRNs of the result are those of the catalog and of
    the file, and a catalog without repeated CRNs stays so. *)
Theorem ingest_offerings_spec (catalog new_offerings : list Offering) :
  exists extra,
    ingest_offerings catalog new_offerings
    = ((catalog ++ extra)%list, list_to_set (map crn (catalog ++ extra)), length extra) /\
    sublist extra new_offerings /\
    (NoDup (map crn catalog) -> NoDup (map crn (catalog ++ extra))) /\
    (forall c, In c (map crn (catalog ++ extra)) <->
               In c (map crn catalog) \/ In c (map crn new_offerings)).
Proof.
  destruct (ingest_fold_spec new_offerings catalog (list_to_set (map crn catalog)) 0 eq_refl)
    as (extra & H). exists extra. exact H.
Qed.

(** ** The solve endpoint *)


(** ** The first occurrence of a meeting in the calendar export *)

(** X28: [days_ahead] moves the start of the term to the first date on or after
    it that falls on the day of the meeting: it is less than a week, it
    lands on that weekday, and no shorter move does. *)
Theorem days_ahead_first_occurrence (meeting_day : DayOfWeek) (term_start_weekday : Z) :
  0 <= term_start_weekday < 7 ->
  0 <= days_ahead meeting_day term_start_weekday < 7 /\
  (term_start_weekday + days_ahead meeting_day term_start_weekday) mod 7
  = DAY_TO_ISO_WEEKDAY meeting_day /\
  forall d, 0 <= d < days_ahead meeting_day term_start_weekday ->
            (term_start_weekday + d) mod 7 <> DAY_TO_ISO_WEEKDAY meeting_day.
Proof.
  intros Hw. unfold days_ahead.
  assert (0 <= DAY_TO_ISO_WEEKDAY meeting_day < 7) as Ht by (destruct meeting_day; simpl; lia).
  generalize dependent (DAY_TO_ISO_WEEKDAY meeting_day). intros target Ht.
  pose proof (Z.mod_pos_bound (target - term_start_weekday) 7 ltac:(lia)) as Hb.
  split; [exact Hb|].
  destruct (Z_lt_le_dec target term_start_weekday) as [Hlt|Hge].
  - assert ((target - term_start_weekday) mod 7 = target - term_start_weekday + 7) as ->.
    { symmetry. apply (Z.mod_unique _ 7 (-1)); lia. }
    split.
    + replace (term_start_weekday + (target - term_start_weekday + 7)) with (target + 1 * 7) by lia.
      rewrite Z.mod_add by lia. apply Z.mod_small. lia.
    + intros d Hd Heq.
      destruct (Z_lt_le_dec (term_start_weekday + d) 7) as [H7|H7].
      * rewrite Z.mod_small in Heq by lia. lia.
      * replace (term_start_weekday + d) with ((term_start_weekday + d - 7) + 1 * 7) in Heq by lia.
        rewrite Z.mod_add, Z.mod_small in Heq by lia. lia.
  - assert ((target - term_start_weekday) mod 7 = target - term_start_weekday) as ->
      by (apply Z.mod_small; lia).
    split.
    + replace (term_start_weekday + (target - term_start_weekday)) with target by lia.
      apply Z.mod_small. lia.
    + intros d Hd Heq. rewrite Z.mod_small in Heq by lia. lia.
Qed.

Lemma days_ahead_first_occurrence_witness :
  0 <= 3 < 7 /\ days_ahead TUESDAY 3 = 5 /\ (3 + 5) mod 7 = DAY_TO_ISO_WEEKDAY TUESDAY.
Proof.
  assert (0 <= 3 < 7) as H by lia.
  split; [exact H|]. split; [reflexivity|].
  exact (proj1 (proj2 (days_ahead_first_occurrence TUESDAY 3 H))).
Defined.

(** ** The CSV export, read back by the normalizer *)

Example export_strings :
  export_days_str tuesday_thursday_offering = "T" /\
  export_times_str tuesday_thursday_offering = "09:00 - 09:50" /\
  export_days_str tba_section = "TBA" /\ format_02d 5 = "05" /\ format_02d 123 = "123".
Proof. repeat split; vm_compute; reflexivity. Qed.

Lemma string_app_assoc (a b c : string) : ((a ++ b) ++ c)%string = (a ++ (b ++ c))%string.
Proof.
  induction a as [|x a IH]; [reflexivity|]. rewrite !string_app_cons, IH. reflexivity.
Qed.

Lemma strip_fixed (s : string) :
  string_forall (fun c => negb (Py.isspace c)) s = true -> Py.strip s = s.
Proof.
  intros H. unfold Py.strip. rewrite lstrip_id.
  - apply rstrip_fixed, H.
  - destruct s as [|c s]; [reflexivity|]. simpl in H |- *.
    apply andb_true_iff in H as [-> _]. reflexivity.
Qed.

Lemma uint_digits (u : Decimal.uint) :
  string_forall Py.is_digit (NilEmpty.string_of_uint u) = true.
Proof. induction u; simpl; try rewrite IHu; reflexivity. Qed.

Lemma pos_to_uint_nonempty (p : positive) :
  NilEmpty.string_of_uint (Pos.to_uint p) <> EmptyString.
Proof.
  intros H. assert (Pos.to_uint p = Decimal.Nil) as Hnil.
  { destruct (Pos.to_uint p); simpl in H; try discriminate. reflexivity. }
  pose proof (DecimalPos.Unsigned.to_uint_nonnil p) as Hnn. contradiction.
Qed.

Lemma str_of_int_digits (n : Z) :
  0 <= n ->
  string_forall Py.is_digit (str_of_int n) = true /\ str_of_int n <> EmptyString.
Proof.
  intros Hn. unfold str_of_int. destruct n as [|p|p]; [| |lia].
  - split; [reflexivity | discriminate].
  - simpl. unfold NilZero.string_of_uint.
    destruct (Pos.to_uint p) eqn:E; try (split; [reflexivity | discriminate]);
      rewrite <- E; split; try apply uint_digits; apply pos_to_uint_nonempty.
Qed.

(** A number that is not negative is formatted as two or more digits. *)
Lemma format_02d_digits (n : Z) :
  0 <= n ->
  exists d1 d2 rest,
    format_02d n = String d1 (String d2 rest) /\
    Py.is_digit d1 = true /\ Py.is_digit d2 = true /\ string_forall Py.is_digit rest = true.
Proof.
  intros Hn. destruct (str_of_int_digits n Hn) as [Hd Hne]. unfold format_02d.
  destruct (str_of_int n) as [|c1 [|c2 r]]; [contradiction | |].
  - simpl in Hd |- *. rewrite andb_true_r in Hd. exists "0"%char, c1, EmptyString. auto.
  - simpl in Hd |- *. apply andb_true_iff in Hd as [H1 Hd]. apply andb_true_iff in Hd as [H2 Hd].
    exists c1, c2, r. auto.
Qed.

Lemma is_digit_not_colon (c : ascii) : Py.is_digit c = true -> Ascii.eqb c ":" = false.
Proof. destruct c as [[] [] [] [] [] [] [] []]; vm_compute; intros H; auto; discriminate. Qed.

Lemma match_meridiem_digits (r : string) :
  string_forall Py.is_digit r = true -> match_meridiem r = None.
Proof.
  intros H. unfold match_meridiem. rewrite lstrip_id.
  - destruct r as [|c r]; [reflexivity|]. simpl in H. apply andb_true_iff in H as [Hc _].
    destruct c as [[] [] [] [] [] [] [] []]; vm_compute in Hc; try discriminate Hc; reflexivity.
  - destruct r as [|c r]; [reflexivity|]. simpl in H |- *.
    apply andb_true_iff in H as [Hc _]. apply is_digit_chars in Hc as [_ ->]. reflexivity.
Qed.

Lemma match_minutes_digits (hour b : string) :
  string_forall Py.is_digit b = true -> match_minutes hour b = None.
Proof.
  intros H. unfold match_minutes. destruct b as [|m1 [|m2 rest]]; try reflexivity.
  simpl in H. apply andb_true_iff in H as [H1 H]. apply andb_true_iff in H as [H2 H].
  rewrite H1, H2, (match_meridiem_digits rest H). reflexivity.
Qed.

(** A time written with hours, a colon and minutes, and nothing else, is
    not matched. *)
Lemma match_time_24h (d1 d2 : ascii) (rest b : string) :
  Py.is_digit d1 = true -> Py.is_digit d2 = true ->
  string_forall Py.is_digit rest = true -> string_forall Py.is_digit b = true ->
  match_time (String d1 (String d2 rest) ++ ":" ++ b) = None.
Proof.
  intros H1 H2 Hr Hb. rewrite !string_app_cons. unfold match_time. rewrite H1, H2.
  destruct rest as [|d3 rest].
  - change (EmptyString ++ ":" ++ b)%string with (String ":" b).
    apply match_minutes_digits, Hb.
  - rewrite string_app_cons. simpl in Hr. apply andb_true_iff in Hr as [H3 _].
    destruct d3 as [[] [] [] [] [] [] [] []]; vm_compute in H3; try discriminate H3; reflexivity.
Qed.

Lemma parse_time_24h (d1 d2 : ascii) (rest b : string) :
  Py.is_digit d1 = true -> Py.is_digit d2 = true ->
  string_forall Py.is_digit rest = true -> string_forall Py.is_digit b = true ->
  parse_time (String d1 (String d2 rest) ++ ":" ++ b) = None.
Proof.
  intros H1 H2 Hr Hb. unfold parse_time.
  destruct (blank_or_tba _); [reflexivity|].
  rewrite strip_fixed; [rewrite (match_time_24h d1 d2 rest b H1 H2 Hr Hb); reflexivity|].
  rewrite !string_app_cons. simpl.
  apply is_digit_chars in H1 as [_ ->]. apply is_digit_chars in H2 as [_ ->]. simpl.
  rewrite string_forall_app. apply andb_true_iff. split.
  - eapply string_forall_impl; [|exact Hr]. intros c Hc.
    apply is_digit_chars in Hc as [_ ->]. reflexivity.
  - simpl. eapply string_forall_impl; [|exact Hb]. intros c Hc.
    apply is_digit_chars in Hc as [_ ->]. reflexivity.
Qed.

Lemma split_range_dash (p q : string) :
  string_forall (fun c => negb (Py.isspace c) && negb (Ascii.eqb c "-")) p = true ->
  split_range (p ++ " - " ++ q) = Some (p, Py.lstrip q).
Proof.
  intros Hp. induction p as [|c p IH].
  - reflexivity.
  - simpl in Hp. apply andb_true_iff in Hp as [Hc Hp]. apply andb_true_iff in Hc as [Hs Hd].
    apply negb_true_iff in Hs, Hd. rewrite string_app_cons.
    assert (match_separator (String c (p ++ " - " ++ q)) = None) as Hsep.
    { unfold match_separator. simpl Py.lstrip. rewrite Hs.
      destruct c as [[] [] [] [] [] [] [] []]; vm_compute in Hd; try discriminate Hd;
        reflexivity. }
    simpl split_range. rewrite Hsep, (IH Hp). reflexivity.
Qed.

Lemma clock_chars (a b : string) :
  string_forall Py.is_digit a = true -> string_forall Py.is_digit b = true ->
  string_forall (fun c => negb (Py.isspace c) && negb (Ascii.eqb c "-")) (a ++ ":" ++ b) = true.
Proof.
  intros Ha Hb.
  assert (forall c, Py.is_digit c = true ->
                    negb (Py.isspace c) && negb (Ascii.eqb c "-") = true) as Hd.
  { intros c Hc. destruct c as [[] [] [] [] [] [] [] []]; vm_compute in Hc;
      try discriminate Hc; reflexivity. }
  rewrite !string_forall_app. rewrite (string_forall_impl _ _ a Hd Ha).
  rewrite (string_forall_impl _ _ b Hd Hb). reflexivity.
Qed.

(** X29: The times that the CSV export writes are never read back: they are
    written on a 24-hour clock without a meridiem, which [parse_time] does
    not match, so [parse_times] yields no times and the normalizer builds
    no meeting from an exported row. *)
Theorem export_times_not_read_back (o : Offering) :
  (forall m, In m (meetings o) -> 0 <= start_min m /\ 0 <= end_min m) ->
  parse_times (export_times_str o) = (None, None).
Proof.
  intros Hnonneg. unfold export_times_str.
  destruct (meetings o) as [|m ms]; [reflexivity|].
  destruct (Hnonneg m (or_introl eq_refl)) as [Hs He].
  destruct (format_02d_digits (start_min m / 60)) as (a1 & a2 & ar & -> & Ha1 & Ha2 & Har);
    [apply Z.div_pos; lia|].
  destruct (format_02d_digits (start_min m mod 60)) as (b1 & b2 & br & -> & Hb1 & Hb2 & Hbr);
    [apply Z.mod_pos_bound; lia|].
  destruct (format_02d_digits (end_min m / 60)) as (c1 & c2 & cr & -> & Hc1 & Hc2 & Hcr);
    [apply Z.div_pos; lia|].
  destruct (format_02d_digits (end_min m mod 60)) as (d1 & d2 & dr & -> & Hd1 & Hd2 & Hdr);
    [apply Z.mod_pos_bound; lia|].
  set (A := String a1 (String a2 ar)). set (B := String b1 (String b2 br)).
  set (C := String c1 (String c2 cr)). set (D := String d1 (String d2 dr)).
  assert (string_forall Py.is_digit A = true) as HA by (simpl; rewrite Ha1, Ha2; exact Har).
  assert (string_forall Py.is_digit B = true) as HB by (simpl; rewrite Hb1, Hb2; exact Hbr).
  assert (string_forall Py.is_digit C = true) as HC by (simpl; rewrite Hc1, Hc2; exact Hcr).
  assert (string_forall Py.is_digit D = true) as HD by (simpl; rewrite Hd1, Hd2; exact Hdr).
  replace (A ++ ":" ++ B ++ " - " ++ C ++ ":" ++ D)%string
    with ((A ++ ":" ++ B) ++ " - " ++ (C ++ ":" ++ D))%string
    by (rewrite !string_app_assoc; reflexivity).
  assert (forall a b, string_forall Py.is_digit a = true -> string_forall Py.is_digit b = true ->
            string_forall (fun c => negb (Py.isspace c)) (a ++ ":" ++ b) = true) as Hns.
  { intros a b Ha Hb. eapply string_forall_impl; [|apply (clock_chars a b Ha Hb)].
    intros c Hc. apply andb_true_iff in Hc as [-> _]. reflexivity. }
  unfold parse_times. destruct (blank_or_tba _); [reflexivity|].
  assert (Py.strip ((A ++ ":" ++ B) ++ " - " ++ C ++ ":" ++ D)
          = ((A ++ ":" ++ B) ++ " - " ++ C ++ ":" ++ D)%string) as ->.
  { unfold Py.strip. rewrite lstrip_id.
    - assert (Py.rstrip (C ++ ":" ++ D) = (C ++ ":" ++ D)%string) as HrQ
        by (apply rstrip_fixed, Hns; assumption).
      assert ((C ++ ":" ++ D)%string <> EmptyString) as HQne by (unfold C; discriminate).
      rewrite rstrip_app; [rewrite rstrip_app|].
      + rewrite HrQ. reflexivity.
      + rewrite HrQ. exact HQne.
      + rewrite rstrip_app by (rewrite HrQ; exact HQne). discriminate.
    - unfold A. rewrite !string_app_cons. simpl.
      apply is_digit_chars in Ha1 as [_ ->]. reflexivity. }
  rewrite (split_range_dash _ _ (clock_chars A B HA HB)).
  rewrite lstrip_id.
  - unfold A, C. rewrite !parse_time_24h by assumption. reflexivity.
  - unfold C. rewrite !string_app_cons. simpl.
    apply is_digit_chars in Hc1 as [_ ->]. reflexivity.
Qed.

Lemma export_times_not_read_back_witness :
  (forall m, In m (meetings tuesday_thursday_offering) -> 0 <= start_min m /\ 0 <= end_min m) /\
  export_times_str tuesday_thursday_offering = "09:00 - 09:50" /\
  parse_times "09:00 - 09:50" = (None, None).
Proof.
  assert (forall m, In m (meetings tuesday_thursday_offering) ->
                    0 <= start_min m /\ 0 <= end_min m) as H.
  { intros m [<-|[<-|[]]]; simpl; lia. }
  split; [exact H|]. split; [vm_compute; reflexivity|].
  exact (export_times_not_read_back tuesday_thursday_offering H).
Defined.

Lemma string_forall_of_list (p : ascii -> bool) (l : list ascii) :
  string_forall p (string_of_list_ascii l) = forallb p l.
Proof. induction l as [|c l IH]; simpl; [reflexivity | rewrite IH; reflexivity]. Qed.

Lemma days_of_chars_In (l : list ascii) (d : DayOfWeek) :
  In d (days_of_chars (string_of_list_ascii l)) <-> exists c, In c l /\ DAY_MAP c = Some d.
Proof.
  induction l as [|c l IH]; simpl.
  - split; [intros [] | intros (c & [] & _)].
  - destruct (DAY_MAP c) as [d'|] eqn:E; simpl; rewrite IH; split.
    + intros [<-|(c' & Hc' & H)]; [exists c; auto | exists c'; auto].
    + intros (c' & [<-|Hc'] & H); [left; congruence | right; exists c'; auto].
    + intros (c' & Hc' & H). exists c'. auto.
    + intros (c' & [<-|Hc'] & H); [congruence | exists c'; auto].
Qed.

Lemma day_initial_read_back (d : DayOfWeek) : DAY_MAP (day_initial d) = Some (day_read_back d).
Proof. destruct d; reflexivity. Qed.

Lemma export_day_letters (o : Offering) (c : ascii) :
  In c (sorted char_leb (remove_dups (map (fun m => day_initial (day m)) (meetings o)))) <->
  exists m, In m (meetings o) /\ day_initial (day m) = c.
Proof.
  rewrite sorted_In, <- list_elem_of_In, elem_of_remove_dups, list_elem_of_In, in_map_iff.
  split; intros (m & H1 & H2); exists m; auto.
Qed.

(** X30: The days that the CSV export writes are read back by [parse_days] with
    Thursday as Tuesday and Sunday as Saturday: the export writes the first
    letter of the name of the day, and the two pairs share theirs. *)
Theorem export_days_read_back (o : Offering) (d : DayOfWeek) :
  meetings o <> [] ->
  (In d (parse_days (export_days_str o)) <->
   exists m, In m (meetings o) /\ day_read_back (day m) = d).
Proof.
  intros Hne. unfold export_days_str.
  destruct (meetings o) as [|m0 ms] eqn:Hm; [contradiction|].
  change (nonempty (m0 :: ms)) with true. cbv iota. rewrite <- Hm.
  set (L := sorted char_leb (remove_dups (map (fun m => day_initial (day m)) (meetings o)))).
  assert (forall c, In c L -> exists d0 : DayOfWeek, c = day_initial d0) as Hletters.
  { intros c Hc. apply export_day_letters in Hc as (m & _ & <-). eauto. }
  assert (forall p : ascii -> bool, (forall d0, p (day_initial d0) = true) ->
            string_forall p (string_of_list_ascii L) = true) as Hall.
  { intros p Hp. rewrite string_forall_of_list. apply forallb_forall.
    intros c Hc. destruct (Hletters c Hc) as [d0 ->]. apply Hp. }
  assert (L <> []) as HL.
  { intros E. assert (In (day_initial (day m0)) L) as Hin; [|rewrite E in Hin; exact Hin].
    apply export_day_letters. exists m0. split; [rewrite Hm; left|]; reflexivity. }
  assert (blank_or_tba (string_of_list_ascii L) = false) as Hblank.
  { unfold blank_or_tba.
    rewrite strip_fixed by (apply Hall; intros []; reflexivity).
    rewrite upper_fixed by (apply Hall; intros []; reflexivity).
    destruct L as [|c L'] eqn:E; [contradiction|].
    assert (Py.truthy (string_of_list_ascii (c :: L')) = true) as -> by reflexivity.
    assert (String.eqb (string_of_list_ascii (c :: L')) EmptyString = false) as ->
      by reflexivity.
    destruct (String.eqb (string_of_list_ascii (c :: L')) "TBA") eqn:Heq; [|reflexivity].
    apply String.eqb_eq in Heq.
    assert (In "B"%char (c :: L')) as HB.
    { rewrite <- (list_ascii_of_string_of_list_ascii (c :: L')), Heq. simpl. auto. }
    destruct (Hletters _ HB) as [[] Hd0]; discriminate Hd0. }
  unfold parse_days. rewrite Hblank.
  rewrite strip_fixed by (apply Hall; intros []; reflexivity).
  rewrite upper_fixed by (apply Hall; intros []; reflexivity).
  rewrite days_of_chars_In. split.
  - intros (c & Hc & Hd). apply export_day_letters in Hc as (m & Hmin & <-).
    rewrite day_initial_read_back in Hd. exists m. split; [exact Hmin | congruence].
  - intros (m & Hmin & <-). exists (day_initial (day m)). split.
    + apply export_day_letters. eauto.
    + apply day_initial_read_back.
Qed.

Lemma export_days_read_back_witness :
  meetings tuesday_thursday_offering <> [] /\
  parse_days (export_days_str tuesday_thursday_offering) = [TUESDAY] /\
  (In TUESDAY (parse_days (export_days_str tuesday_thursday_offering)) <->
   exists m, In m (meetings tuesday_thursday_offering) /\ day_read_back (day m) = TUESDAY).
Proof.
  assert (meetings tuesday_thursday_offering <> []) as H by discriminate.
  split; [exact H|]. split; [vm_compute; reflexivity|].
  exact (export_days_read_back tuesday_thursday_offering TUESDAY H).
Defined.

(** ** The size of the answer *)

(** X6: [solve_schedules] never returns more than [max_results]
    schedules, however many the search has buffered. *)
Theorem solve_schedules_at_most_max_results (str_hash : string -> Z)
    (catalog : list Offering) (req : SolveRequest) :
  (length (solve_schedules str_hash catalog req) <= max_results req)%nat.
Proof. exact (solve_schedules_bounded str_hash catalog req). Qed.
